(** * pp_run: the orchestration wrapper of the photometry pipeline

    A shallow embedding of [pp_run.py]: the header inspection loop, the
    batch validation, the stage sequence of [run_the_pipeline] and the
    directory walk of the [__main__] block, followed by the properties of
    the orchestration that hold (or fail) on that code.

    Python values are modelled as follows.
    - [str] is [string] (Python 2 byte strings), lists are [list], the
      dictionaries of [_pp_conf] and a FITS header are [gmap string _].
    - The process state that the wrapper reads or writes (working
      directory, the module globals it assigns, everything it sends to the
      log, the console and the collaborating modules) is the record
      [world]; the code is written in a state-and-exception monad [M]
      over it.
    - The modules [pp_prepare], [pp_register], [pp_photometry],
      [pp_calibrate], [pp_distill], [astropy.io.fits], [os.walk] and the
      configuration module [_pp_conf] are not part of this file: they are
      parameters ([external], [pp_conf]).
    - Floating point values only travel through the wrapper; they are
      carried as rationals and never computed with, except for the test
      [zp == 0]. *)

From Stdlib Require Import ZArith QArith Ascii String.
From stdpp Require Import gmap strings list sorting.

Local Open Scope string_scope.
Local Open Scope list_scope.

(** ** Configuration and collaborator results *)

(** One entry of [_pp_conf.telescope_parameters]: the keys that
    [run_the_pipeline] reads. *)
Record obsparam := {
  source_minarea : Z;
  aprad_default : Q;
  filter_translations : gmap string (option string)
}.

(** The names of [_pp_conf] that the wrapper reads and never assigns. *)
Record pp_conf := {
  instrument_keys : list string;
  filter_keys : list string;
  instrument_identifiers : gmap string string;
  telescope_parameters : gmap string obsparam;
  minstars : Z;
  (** [setup_diagnostics()]: only the data root, a function of the
      working directory, is read back by the wrapper *)
  setup_diagnostics : string → string
}.

(** [pp_register.register] returns a dictionary; the wrapper reads
    ['goodfits'] and ['badfits']. *)
Record registration := {
  goodfits : list string;
  badfits : list string
}.

(** [pp_photometry.photometry]: ['optimum_aprad'] and ['n_target']. *)
Record phot := {
  optimum_aprad : Q;
  n_target : Z
}.

Record zeropoint := { zp : Q; zp_sig : Q }.

(** [pp_calibrate.calibrate]: ['zeropoints'], the catalogue name of
    ['ref_cat'] and ['catalogs']. *)
Record calibration := {
  zeropoints : list zeropoint;
  ref_cat : string;
  catalogs : list string
}.

(** [pp_distill.distill]: the keys of ['targetnames'] in the order
    [keys()] gives them, and the frames stored under a target name (it
    stores an entry under every name it lists). *)
Record distillate := {
  targetnames : list string;
  target_frames : string → list (list Q)
}.

(** The collaborators. Each one is a function of the working directory it
    is called in (the data set it sees) and of its arguments. *)
Record external := {
  (** [fits.open(filename)[0].header], [None] when [IOError] is raised *)
  fits_open : string → string → option (gmap string string);
  pp_register : string → list string → string → Q → Z → Q → obsparam →
                registration;
  pp_photometry : string → list string → Q → Z → option Q → option string →
                  bool → bool → string → obsparam → phot;
  (** [None] is Python's [None]: no usable calibration *)
  pp_calibrate : string → list string → Z → string → obsparam →
                 option calibration;
  pp_distill : string → list string → option string → distillate;
  (** [os.walk(top)], in the order it yields: [(root, dirs, files)] *)
  os_walk : string → list (string * list string * list string)
}.

(** ** What the wrapper does to the outside *)

Inductive stage := Prepare | Register | Photometry | Calibrate | Distill.

(** The summary strings handed to [diag.insert_into_summary]. The HTML
    text is fixed by the constructor; the arguments are the values that
    the format string interpolates. *)
Inductive summary_message :=
  | AllImagesRegistered
  | RegistrationFailed
  | RegistrationFailedFor (nbad ntotal : nat)
  | ApertureRadius (aprad : Q) (target_and_background : bool)
  | NoPhotCalibration
  | AverageZeropoint (zps zp_errs : list Q) (catalogname : string)
  | AverageTargetBrightness (mags : list Q)
  | NoPrimaryTarget.

(** Lines written with [logging] or [print]. *)
Inductive message :=
  | NewPipelineProcess (dataroot : string)
  | CheckFrames (n : nat)
  | CannotOpenFile (filename : string)
  | MultipleInstruments (tags : list string)
  | MultipleFilters (tags : list string)
  | FileTag (filename tag : string)
  | TelescopeFramesIdentified (n : nat) (telescope : string)
  | FilterFramesIdentified (n : nat) (filtername : option string)
  | RunPipelineOn (n : nat) (telescope : string) (filtername : option string)
  | Banner (s : stage)
  | NothingElseForFilter (filtername : option string)
  | NothingElseForImageSet
  | NothingToDo
  | NothingToDoCalibrate
  | DoneMessage
  | SuccessfullyDone
  | RunPipelineIn (root : string)
  | NothingToDoIn (root : string).

Inductive level := INFO | ERROR.

Inductive event :=
  (** call marker: [run_the_pipeline] entered in directory [dir] *)
  | RunThePipeline (dir : string) (filenames : list string)
  | SetupDiagnostics (dir : string)
  | Logging (l : level) (m : message)
  | Printed (m : message)
  | FitsOpen (filename : string)
  (** a stage called with this frame set (for [Distill]: the catalogues) *)
  | Invoke (s : stage) (frames : list string)
  | InsertIntoSummary (m : summary_message)
  | DiagAbort (where_ : string)
  | Chdir (dir : string)
  | CreateSummary
  | GcCollect.

(** The process state. [man_targetname] is the module global that the
    [__main__] block assigns and [run_the_pipeline] reads;
    [use_diagnostics_summary] and [pp_process_idx] live in [_pp_conf]. *)
Record world := {
  cwd : string;
  use_diagnostics_summary : bool;
  pp_process_idx : nat;
  man_targetname : option string;
  trace : list event
}.

(** ** Exceptions and the monad *)

Inductive exn :=
  | IOError
  | KeyError (what : string)
  | NameError (name : string)
  | IndexError
  | SystemExit (code : option Z).

(** A statement yields a value, leaves the function with [return v], or
    raises. *)
Inductive result (A : Type) :=
  | Val (a : A)
  | Return (v : Z)
  | Raise (e : exn).
Arguments Val {A} a.
Arguments Return {A} v.
Arguments Raise {A} e.

Definition M (A : Type) : Type := world → world * result A.

Definition ret {A} (a : A) : M A := λ w, (w, Val a).

Definition bind {A B} (m : M A) (k : A → M B) : M B := λ w,
  match m w with
  | (w', Val a) => k a w'
  | (w', Return v) => (w', Return v)
  | (w', Raise e) => (w', Raise e)
  end.

Notation "'let*' x ':=' m 'in' k" := (bind m (λ x, k))
  (at level 10, x pattern, m at level 100, k at level 200).
Notation "m '>>' k" := (bind m (λ _, k))
  (at level 100, k at level 200, right associativity).

Definition raise {A} (e : exn) : M A := λ w, (w, Raise e).
Definition return_ {A} (v : Z) : M A := λ w, (w, Return v).

Definition emit (e : event) : M unit := λ w,
  ({| cwd := cwd w;
      use_diagnostics_summary := use_diagnostics_summary w;
      pp_process_idx := pp_process_idx w;
      man_targetname := man_targetname w;
      trace := trace w ++ [e] |}, Val tt).

Definition getcwd : M string := λ w, (w, Val (cwd w)).

Definition chdir (dir : string) : M unit := λ w,
  ({| cwd := dir;
      use_diagnostics_summary := use_diagnostics_summary w;
      pp_process_idx := pp_process_idx w;
      man_targetname := man_targetname w;
      trace := trace w ++ [Chdir dir] |}, Val tt).

Definition get_use_diagnostics_summary : M bool :=
  λ w, (w, Val (use_diagnostics_summary w)).

Definition set_use_diagnostics_summary (b : bool) : M unit := λ w,
  ({| cwd := cwd w;
      use_diagnostics_summary := b;
      pp_process_idx := pp_process_idx w;
      man_targetname := man_targetname w;
      trace := trace w |}, Val tt).

Definition increment_pp_process_idx : M unit := λ w,
  ({| cwd := cwd w;
      use_diagnostics_summary := use_diagnostics_summary w;
      pp_process_idx := S (pp_process_idx w);
      man_targetname := man_targetname w;
      trace := trace w |}, Val tt).

Definition get_man_targetname : M (option string) :=
  λ w, (w, Val (man_targetname w)).

Definition set_man_targetname (t : option string) : M unit := λ w,
  ({| cwd := cwd w;
      use_diagnostics_summary := use_diagnostics_summary w;
      pp_process_idx := pp_process_idx w;
      man_targetname := t;
      trace := trace w |}, Val tt).

(** [for x in l: body(x)] *)
Fixpoint for_each {A} (l : list A) (body : A → M unit) : M unit :=
  match l with
  | [] => ret tt
  | x :: l' => body x >> for_each l' body
  end.

(** [if _pp_conf.use_diagnostics_summary: diag.insert_into_summary(m)] *)
Definition add_to_summary (m : summary_message) : M unit :=
  let* b := get_use_diagnostics_summary in
  if b then emit (InsertIntoSummary m) else ret tt.

(** ** Regular expressions: the fragment of [re] that the pattern uses

    [re.compile('^' + prefix + '.*[fits|FITS|Fits|fts|FTS]$')] is parsed
    from the pattern string, so that the prefix is read as the regular
    expression it is. The fragment: a leading [^], ordinary characters,
    [.], a character set [[...]] without range, negation or escape, the
    postfix [*], and a final [$]. [re_compile] answers [None] on any other
    pattern. *)

Inductive atom :=
  | Lit (c : ascii)
  | AnyChar
  | OneOf (cs : list ascii).

Inductive item :=
  | One (a : atom)
  | Many (a : atom)
  | Eol.

Inductive token :=
  | TAtom (a : atom)
  | TStar
  | TDollar.

Definition newline : ascii := ascii_of_nat 10.

Definition special_outside : list ascii :=
  list_ascii_of_string "\^$*+?{}[]()|".

Definition special_inside : list ascii :=
  list_ascii_of_string "\^-[".

Definition mem (c : ascii) (cs : list ascii) : bool :=
  existsb (Ascii.eqb c) cs.

(** [in_set] is [Some cs] while the characters of a set are being read. *)
Fixpoint tokenize (in_set : option (list ascii)) (s : list ascii)
  : option (list token) :=
  match s with
  | [] => match in_set with None => Some [] | Some _ => None end
  | c :: s' =>
    match in_set with
    | Some cs =>
      if Ascii.eqb c "]" then
        match cs with
        | [] => None
        | _ => cons (TAtom (OneOf cs)) <$> tokenize None s'
        end
      else if mem c special_inside then None
      else tokenize (Some (cs ++ [c])) s'
    | None =>
      if Ascii.eqb c "[" then tokenize (Some []) s'
      else if Ascii.eqb c "." then cons (TAtom AnyChar) <$> tokenize None s'
      else if Ascii.eqb c "*" then cons TStar <$> tokenize None s'
      else if Ascii.eqb c "$" then cons TDollar <$> tokenize None s'
      else if mem c special_outside then None
      else cons (TAtom (Lit c)) <$> tokenize None s'
    end
  end.

Fixpoint items_of (ts : list token) : option (list item) :=
  match ts with
  | [] => Some []
  | TAtom a :: TStar :: ts' => cons (Many a) <$> items_of ts'
  | TAtom a :: ts' => cons (One a) <$> items_of ts'
  | [TDollar] => Some [Eol]
  | _ => None
  end.

Definition re_compile (pattern : string) : option (list item) :=
  let s := list_ascii_of_string pattern in
  let body := match s with
              | c :: s' => if Ascii.eqb c "^" then s' else s
              | [] => s
              end in
  tokenize None body ≫= items_of.

Definition accepts (a : atom) (c : ascii) : bool :=
  match a with
  | Lit c' => Ascii.eqb c c'
  | AnyChar => negb (Ascii.eqb c newline)
  | OneOf cs => mem c cs
  end.

(** Does the expression match at the start of [s]? [$] holds at the end
    of the string and just before a newline that ends it. *)
Fixpoint match_here (r : list item) (s : list ascii) : bool :=
  match r with
  | [] => true
  | Eol :: _ =>
    match s with
    | [] => true
    | [c] => Ascii.eqb c newline
    | _ => false
    end
  | One a :: r' =>
    match s with
    | c :: s' => accepts a c && match_here r' s'
    | [] => false
    end
  | Many a :: r' =>
    (fix many (s : list ascii) : bool :=
       match_here r' s ||
       match s with
       | c :: s' => accepts a c && many s'
       | [] => false
       end) s
  end.

(** [re.match(regex, s)], as a truth value *)
Definition re_match (regex : list item) (s : string) : bool :=
  match_here regex (list_ascii_of_string s).

(** The pattern string of line 303. *)
Definition dataset_pattern (prefix : string) : string :=
  "^" ++ prefix ++ ".*[fits|FITS|Fits|fts|FTS]$".

(** The characters between the brackets of the pattern. *)
Definition extension_set : list ascii :=
  list_ascii_of_string "fits|FITS|Fits|fts|FTS".

(** A prefix of ordinary characters: none that [re] reads as an
    operator. *)
Definition ordinary (c : ascii) : bool :=
  negb (mem c (list_ascii_of_string ".\^$*+?{}[]()|")).

Definition plain (prefix : string) : Prop :=
  Forall (λ c, ordinary c = true) (list_ascii_of_string prefix).

(** [sorted(l)] on byte strings: the order is [String.leb]. *)
Definition string_le (s1 s2 : string) : Prop := String.leb s1 s2 = true.

Global Instance string_le_dec : RelDecision string_le :=
  λ s1 s2, decide (String.leb s1 s2 = true).

Definition sorted (l : list string) : list string := merge_sort string_le l.

(** Line 309: [sorted([s for s in files if re.match(regex, s)])] *)
Definition dataset_frames (regex : list item) (files : list string)
  : list string :=
  sorted (List.filter (re_match regex) files).


(** ** [run_the_pipeline] *)

Section Pipeline.

Context (conf : pp_conf) (ext : external).

(** Lines 91-93 and 94-96: one value appended for every key of the list
    that the header has. *)
Definition header_values (keys : list string) (header : gmap string string)
  : list string :=
  omap (λ key, header !! key) keys.

(** Lines 81-96. The [for] statement iterates over the list object that
    the body shrinks: the iterator holds the index [idx] of the next item
    (which is also the count of [enumerate]) and stops once [idx] is past
    the end of the list as it then is. [fuel] bounds the number of
    iterations; [read_headers] starts it at the length of the list. *)
Fixpoint header_loop (fuel idx : nat)
    (filenames instruments filters : list string)
  : M (list string * list string * list string) :=
  match fuel with
  | O => ret (filenames, instruments, filters)
  | S fuel' =>
    match filenames !! idx with
    | None => ret (filenames, instruments, filters)
    | Some filename =>
      let* dir := getcwd in
      emit (FitsOpen filename) >>
      match fits_open ext dir filename with
      | None =>
        emit (Logging ERROR (CannotOpenFile filename)) >>
        emit (Printed (CannotOpenFile filename)) >>
        header_loop fuel' (S idx) (delete idx filenames) instruments filters
      | Some header =>
        header_loop fuel' (S idx) filenames
          (instruments ++ header_values (instrument_keys conf) header)
          (filters ++ header_values (filter_keys conf) header)
      end
    end
  end.

Definition read_headers (filenames : list string)
  : M (list string * list string * list string) :=
  header_loop (length filenames) 0 filenames [] [].

(** What the loop comes to, file by file: a file that opens is kept and
    gives its tags; a file that does not open is dropped, and the file
    after it is kept without being opened. [read_headers_scan] proves
    that [read_headers] computes this. *)
Fixpoint scan (dir : string) (filenames : list string)
  : list string * list string * list string :=
  match filenames with
  | [] => ([], [], [])
  | filename :: rest =>
    match fits_open ext dir filename with
    | Some header =>
      let '(kept, instruments, filters) := scan dir rest in
      (filename :: kept,
       header_values (instrument_keys conf) header ++ instruments,
       header_values (filter_keys conf) header ++ filters)
    | None =>
      match rest with
      | [] => ([], [], [])
      | skipped :: rest' =>
        let '(kept, instruments, filters) := scan dir rest' in
        (skipped :: kept, instruments, filters)
      end
    end
  end.

(** Lines 116-117 and 128-129:
    [for i in range(len(filenames)): logging.error(filenames[i], tags[i])] *)
Definition report_tags (filenames tags : list string) : M unit :=
  for_each (seq 0 (length filenames)) (λ i,
    match filenames !! i with
    | None => raise IndexError
    | Some filename =>
      match tags !! i with
      | None => raise IndexError
      | Some tag => emit (Logging ERROR (FileTag filename tag))
      end
    end).

(** [d[key]] on a dictionary *)
Definition subscript {V} (d : gmap string V) (key : string) : M V :=
  match d !! key with
  | Some v => ret v
  | None => raise (KeyError key)
  end.

(** [tags[0]] on a list *)
Definition first (tags : list string) : M string :=
  match tags with
  | tag :: _ => ret tag
  | [] => raise IndexError
  end.

(** Lines 98-136. The [print] of line 112 evaluates [instruemnts], a name
    that is bound nowhere: the statement raises before it prints. *)
Definition validate_batch (filenames instruments filters : list string)
  : M (string * obsparam * option string) :=
  (if decide (length filenames = 0) then raise IOError else ret tt) >>
  (if decide (length instruments = 0)
   then raise (KeyError "cannot identify telescope/instrument")
   else ret tt) >>
  (if decide (length filters = 0)
   then raise (KeyError "cannot identify filter")
   else ret tt) >>
  (if decide (1 < length (remove_dups instruments)) then
     @raise unit (NameError "instruemnts") >>
     emit (Logging ERROR (MultipleInstruments (remove_dups instruments))) >>
     report_tags filenames instruments >>
     raise (SystemExit None)
   else ret tt) >>
  let* tag := first instruments in
  let* telescope := subscript (instrument_identifiers conf) tag in
  let* obsparam := subscript (telescope_parameters conf) telescope in
  emit (Logging INFO (TelescopeFramesIdentified (length filenames) telescope)) >>
  (if decide (1 < length (remove_dups filters)) then
     emit (Printed (MultipleFilters (remove_dups filters))) >>
     emit (Logging ERROR (MultipleFilters (remove_dups filters))) >>
     report_tags filenames filters >>
     raise (SystemExit None)
   else ret tt) >>
  let* tag := first filters in
  let* filtername := subscript (filter_translations obsparam) tag in
  emit (Logging INFO (FilterFramesIdentified (length filenames) filtername)) >>
  emit (Printed (RunPipelineOn (length filenames) telescope filtername)) >>
  ret (telescope, obsparam, filtername).

(** Lines 61-136: everything before the first stage. *)
Definition identify (filenames : list string)
  : M (list string * string * obsparam * option string) :=
  let* dir := getcwd in
  emit (RunThePipeline dir filenames) >>
  increment_pp_process_idx >>
  emit (SetupDiagnostics dir) >>
  emit (Logging INFO (NewPipelineProcess (setup_diagnostics conf dir))) >>
  emit (Logging INFO (CheckFrames (length filenames))) >>
  let* (filenames, instruments, filters) := read_headers filenames in
  let* (telescope, obsparam, filtername) :=
    validate_batch filenames instruments filters in
  ret (filenames, telescope, obsparam, filtername).

(** Lines 157-166 *)
Definition registration_summary (registration : registration)
    (filenames : list string) : summary_message :=
  if decide (length (goodfits registration) = length filenames)
  then AllImagesRegistered
  else if decide (length (goodfits registration) = 0)
  then RegistrationFailed
  else RegistrationFailedFor (length (badfits registration))
                             (length filenames).

(** Lines 205-212 *)
Definition photometry_summary (phot : phot) : summary_message :=
  ApertureRadius (optimum_aprad phot) (bool_decide (n_target phot > 0)%Z).

(** Lines 235-244 *)
Definition calibration_summary (calibration : calibration)
  : summary_message :=
  let zps := zp <$> zeropoints calibration in
  let zp_errs := zp_sig <$> zeropoints calibration in
  if forallb (λ z, Qeq_bool z 0) zps
  then NoPhotCalibration
  else AverageZeropoint zps zp_errs (ref_cat calibration).

(** Lines 255-263: the first target name other than ['control_star'] and
    the eighth column of each of its frames; [IndexError] (no such name,
    or a frame that is too short) is caught. *)
Definition distill_summary (distillate : distillate) : summary_message :=
  match List.filter (λ t, negb (String.eqb t "control_star"))
                    (targetnames distillate) with
  | [] => NoPrimaryTarget
  | target :: _ =>
    match mapM (λ frame : list Q, frame !! 7%nat)
               (target_frames distillate target) with
    | Some mags => AverageTargetBrightness mags
    | None => NoPrimaryTarget
    end
  end.

(** Lines 147-155: registration with the default SExtractor and SCAMP
    parameters of the instrument. *)
Definition register_stage (dir : string) (filenames : list string)
    (telescope : string) (obsparam : obsparam) : registration :=
  pp_register ext dir filenames telescope 3 (source_minarea obsparam)
              (aprad_default obsparam) obsparam.

(** Lines 194-203: [aprad = None] forces the curve-of-growth analysis. *)
Definition photometry_stage (dir : string) (filenames : list string)
    (target : option string) (telescope : string) (obsparam : obsparam)
  : phot :=
  pp_photometry ext dir filenames (3 # 2) (source_minarea obsparam) None
                target false false telescope obsparam.

(** Lines 221-227 *)
Definition calibrate_stage (dir : string) (filenames : list string)
    (manfilter : string) (obsparam : obsparam) : option calibration :=
  pp_calibrate ext dir filenames (minstars conf) manfilter obsparam.

(** Lines 139-273: the stages, from the frame set and the instrument
    profile that [identify] resolved. *)
Definition run_stages (filenames : list string) (telescope : string)
    (obsparam : obsparam) (filtername : option string) : M unit :=
  let* dir := getcwd in
  emit (Invoke Prepare filenames) >>
  emit (Printed (Banner Register)) >>
  emit (Invoke Register filenames) >>
  let registration := register_stage dir filenames telescope obsparam in
  add_to_summary (registration_summary registration filenames) >>
  let filenames := goodfits registration in
  match filtername with
  | None =>
    emit (Logging INFO (NothingElseForFilter filtername)) >>
    emit (Printed (NothingElseForFilter filtername)) >>
    return_ 0
  | Some manfilter =>
    (if decide (length filenames = 0) then
       emit (Logging INFO NothingElseForImageSet) >>
       emit (Printed NothingElseForImageSet) >>
       emit (DiagAbort "pp_registration") >>
       return_ 0
     else ret tt) >>
    let* target := get_man_targetname in
    emit (Printed (Banner Photometry)) >>
    emit (Invoke Photometry filenames) >>
    let phot := photometry_stage dir filenames target telescope obsparam in
    add_to_summary (photometry_summary phot) >>
    emit (Printed (Banner Calibrate)) >>
    emit (Invoke Calibrate filenames) >>
    match calibrate_stage dir filenames manfilter obsparam with
    | None =>
      emit (Printed NothingToDo) >>
      emit (Logging ERROR NothingToDoCalibrate) >>
      emit (DiagAbort "pp_calibrate") >>
      raise (SystemExit (Some 1%Z))
    | Some calibration =>
      add_to_summary (calibration_summary calibration) >>
      emit (Printed (Banner Distill)) >>
      emit (Invoke Distill (catalogs calibration)) >>
      let distillate := pp_distill ext dir (catalogs calibration) target in
      add_to_summary (distill_summary distillate) >>
      emit (Printed DoneMessage) >>
      emit (Logging INFO SuccessfullyDone) >>
      emit GcCollect
    end
  end.

(** The value of a call: [return v] gives [v], the end of the body gives
    [None]; an exception goes on to the caller. *)
Definition call (body : M unit) : M (option Z) := λ w,
  match body w with
  | (w', Val _) => (w', Val None)
  | (w', Return v) => (w', Val (Some v))
  | (w', Raise e) => (w', Raise e)
  end.

Definition run_the_pipeline (filenames : list string) : M (option Z) :=
  call (let* (filenames, telescope, obsparam, filtername) :=
          identify filenames in
        run_stages filenames telescope obsparam filtername).

(** ** The [__main__] block *)

(** Lines 306-318, for the directories that [os.walk] yields. *)
Definition dispatch (regex : list item) (_masterroot_directory : string)
    (walk : list (string * list string * list string)) : M unit :=
  for_each walk (λ '(root, dirs, files),
    let filenames := dataset_frames regex files in
    if decide (0 < length filenames) then
      emit (Printed (RunPipelineIn root)) >>
      chdir root >>
      run_the_pipeline filenames >>
      chdir _masterroot_directory
    else
      emit (Printed (NothingToDoIn root))).

(** Lines 288-324, after the command line is parsed into [prefix],
    [target] and [images]. The answer is [None] when the pattern built
    from the prefix is outside the fragment that [re_compile] reads. *)
Definition main (prefix target : option string) (images : list string)
  : world → option (world * result unit) :=
  let batch :=
    match images, prefix with
    | [image], Some prefix =>
      if String.eqb image "all" then Some prefix else None
    | _, _ => None
    end in
  match batch with
  | Some prefix =>
    match re_compile (dataset_pattern prefix) with
    | None => λ _, None
    | Some regex => λ w, Some (
        (set_man_targetname target >>
         let* _masterroot_directory := getcwd in
         set_use_diagnostics_summary true >>
         emit CreateSummary >>
         dispatch regex _masterroot_directory
                  (os_walk ext _masterroot_directory)) w)
    end
  | None => λ w, Some (
      (set_man_targetname target >>
       run_the_pipeline images >>
       ret tt) w)
  end.

End Pipeline.

(** ** Reading a trace *)

(** [w] with [evs] appended to what was recorded. *)
Definition extend (w : world) (evs : list event) : world :=
  {| cwd := cwd w;
     use_diagnostics_summary := use_diagnostics_summary w;
     pp_process_idx := pp_process_idx w;
     man_targetname := man_targetname w;
     trace := trace w ++ evs |}.

(** [w'] is [w] after [evs], in the same directory and with the same
    globals (the process counter apart). *)
Definition frame (w w' : world) (evs : list event) : Prop :=
  trace w' = trace w ++ evs ∧
  cwd w' = cwd w ∧
  use_diagnostics_summary w' = use_diagnostics_summary w ∧
  man_targetname w' = man_targetname w.

(** Every event of [m] satisfies [P], and [m] stays in its directory. *)
Definition emits {A} (P : event → Prop) (m : M A) : Prop :=
  ∀ w, ∃ evs, frame w (m w).1 evs ∧ Forall P evs.

Definition stages_invoked (evs : list event) : list stage :=
  omap (λ e, match e with Invoke s _ => Some s | _ => None end) evs.

Definition aborts (evs : list event) : list string :=
  omap (λ e, match e with DiagAbort s => Some s | _ => None end) evs.

Definition summaries (evs : list event) : list summary_message :=
  omap (λ e, match e with InsertIntoSummary m => Some m | _ => None end) evs.

(** The four reporting stages and the strings handed to the reporter, in
    the order they happen. *)
Definition reports (evs : list event) : list (stage + summary_message) :=
  omap (λ e, match e with
             | Invoke Prepare _ => None
             | Invoke s _ => Some (inl s)
             | InsertIntoSummary m => Some (inr m)
             | _ => None
             end) evs.

Definition calls (evs : list event) : list (string * list string) :=
  omap (λ e, match e with
             | RunThePipeline dir filenames => Some (dir, filenames)
             | _ => None
             end) evs.

Definition chdirs (evs : list event) : list string :=
  omap (λ e, match e with Chdir dir => Some dir | _ => None end) evs.

Definition opened (evs : list event) : list string :=
  omap (λ e, match e with FitsOpen f => Some f | _ => None end) evs.

Definition file_tags (evs : list event) : list (string * string) :=
  omap (λ e, match e with
             | Logging _ (FileTag f t) => Some (f, t)
             | _ => None
             end) evs.

(** Events of the inspection and validation: no stage, no summary, no
    abort, no change of directory, no nested call. *)
Definition pre_stage (e : event) : Prop :=
  match e with
  | Invoke _ _ | InsertIntoSummary _ | DiagAbort _ | Chdir _
  | RunThePipeline _ _ => False
  | _ => True
  end.

(** Events inside one call of [run_the_pipeline], its marker apart. *)
Definition inner (e : event) : Prop :=
  match e with
  | Chdir _ | RunThePipeline _ _ => False
  | _ => True
  end.

(** What one call records after its marker, as the [__main__] block sees
    it: the call changes no directory, does not call itself and does not
    create the summary. *)
Definition own_event (e : event) : Prop :=
  match e with
  | Chdir _ | RunThePipeline _ _ | CreateSummary => False
  | _ => True
  end.

(** The world in which the dispatcher calls [run_the_pipeline] for the
    directory [root] (lines 313-314), and the world it goes on from when
    the call has come back (line 316). *)
Definition enter (root : string) (w : world) : world :=
  {| cwd := root;
     use_diagnostics_summary := use_diagnostics_summary w;
     pp_process_idx := pp_process_idx w;
     man_targetname := man_targetname w;
     trace := trace w ++ [Printed (RunPipelineIn root); Chdir root] |}.

Definition leave (master : string) (w : world) : world :=
  {| cwd := master;
     use_diagnostics_summary := use_diagnostics_summary w;
     pp_process_idx := pp_process_idx w;
     man_targetname := man_targetname w;
     trace := trace w ++ [Chdir master] |}.

(** The world in which the walk starts (lines 289-300). *)
Definition batch_start (target : option string) (w : world) : world :=
  {| cwd := cwd w;
     use_diagnostics_summary := true;
     pp_process_idx := pp_process_idx w;
     man_targetname := target;
     trace := trace w ++ [CreateSummary] |}.

(** The stages invoked, each with the frame set it was given. *)
Definition invocations (evs : list event) : list (stage * list string) :=
  omap (λ e, match e with Invoke s frames => Some (s, frames) | _ => None end)
       evs.

(** The ways in which [m] may end without a value: every exception it
    raises satisfies [Q], every value it returns with satisfies [R]. *)
Definition stops {A} (Q : exn → Prop) (R : Z → Prop) (m : M A) : Prop :=
  ∀ w, match (m w).2 with
       | Val _ => True
       | Return v => R v
       | Raise e => Q e
       end.

(** [m] leaves the process counter as it is. *)
Definition steady {A} (m : M A) : Prop :=
  ∀ w, pp_process_idx (m w).1 = pp_process_idx w.

(** What the header loop records: the files it opens and the two notices
    for a file that does not open. *)
Definition header_event (e : event) : Prop :=
  match e with
  | FitsOpen _ | Logging ERROR (CannotOpenFile _)
  | Printed (CannotOpenFile _) => True
  | _ => False
  end.

(** The world in which the header loop of a call starts (lines 61-79). *)
Definition entered (conf : pp_conf) (w : world) (filenames : list string)
  : world :=
  {| cwd := cwd w;
     use_diagnostics_summary := use_diagnostics_summary w;
     pp_process_idx := S (pp_process_idx w);
     man_targetname := man_targetname w;
     trace := trace w ++
       [RunThePipeline (cwd w) filenames; SetupDiagnostics (cwd w);
        Logging INFO (NewPipelineProcess (setup_diagnostics conf (cwd w)));
        Logging INFO (CheckFrames (length filenames))] |}.

(** A list of tags that is not empty and holds one value only. *)
Definition homogeneous (tags : list string) (tag : string) : Prop :=
  tags ≠ [] ∧ ∀ t, t ∈ tags → t = tag.

(** The string of one stage, if the summary is switched on. *)
Definition summary (b : bool) (m : summary_message) : list event :=
  if b then [InsertIntoSummary m] else [].

(** The data sets of a walk: the directories with matching files, each
    with its sorted matches. *)
Definition datasets (regex : list item)
    (walk : list (string * list string * list string))
  : list (string * list string) :=
  omap (λ '(root, _, files),
          match dataset_frames regex files with
          | [] => None
          | filenames => Some (root, filenames)
          end) walk.

(** The rule for data frames in the words of the specification, to be
    compared with [re_match] on the compiled pattern: the name starts
    with the prefix and ends with one of the extensions that the pattern
    lists. *)
Definition recognized_extensions : list string :=
  ["fits"; "FITS"; "Fits"; "fts"; "FTS"].

Definition selected_by_rule (prefix filename : string) : bool :=
  String.prefix prefix filename &&
  existsb (λ extension,
             bool_decide (list_ascii_of_string extension `suffix_of`
                          list_ascii_of_string filename))
          recognized_extensions.

(** ** A small observatory for the examples *)

Module Examples.

Definition tel1 : obsparam := {|
  source_minarea := 12;
  aprad_default := 4;
  filter_translations := <["R" := Some "R"]> {["clear" := None]}
|}.

Definition conf : pp_conf := {|
  instrument_keys := ["PPINSTRU"; "INSTRUME"];
  filter_keys := ["FILTER"; "FILTERS"];
  instrument_identifiers := <["TEL1" := "TEL1CAM"]> {["TEL2" := "TEL2CAM"]};
  telescope_parameters := <["TEL1CAM" := tel1]> {["TEL2CAM" := tel1]};
  minstars := 3;
  setup_diagnostics := λ dir, dir
|}.

Definition header (instrument filter : string) : gmap string string :=
  <["INSTRUME" := instrument]> {["FILTER" := filter]}.

Definition all_registered (filenames : list string) : registration :=
  {| goodfits := filenames; badfits := [] |}.

Definition none_registered (filenames : list string) : registration :=
  {| goodfits := []; badfits := filenames |}.

Definition some_phot : phot := {| optimum_aprad := 7 # 2; n_target := 1 |}.

Definition some_calibration (filenames : list string) : calibration := {|
  zeropoints := (λ _, {| zp := 251 # 10; zp_sig := 1 # 20 |}) <$> filenames;
  ref_cat := "URAT-1";
  catalogs := filenames
|}.

Definition some_distillate : distillate := {|
  targetnames := ["control_star"; "Ceres"];
  target_frames := λ _, [[1; 2; 3; 4; 5; 6; 7; 153 # 10]%Q]
|}.

(** An observatory is fixed by what its files hold, how registration and
    calibration answer, and the directory listing. *)
Definition observatory
    (open : string → string → option (gmap string string))
    (register : string → list string → registration)
    (calibrate : string → list string → option calibration)
    (walk : list (string * list string * list string)) : external := {|
  fits_open := open;
  pp_register := λ dir filenames _ _ _ _ _, register dir filenames;
  pp_photometry := λ _ _ _ _ _ _ _ _ _ _, some_phot;
  pp_calibrate := λ dir filenames _ _ _, calibrate dir filenames;
  pp_distill := λ _ _ _, some_distillate;
  os_walk := λ _, walk
|}.

Definition start (dir : string) (summary : bool) : world := {|
  cwd := dir;
  use_diagnostics_summary := summary;
  pp_process_idx := 0;
  man_targetname := None;
  trace := []
|}.

Definition two_frames : list string := ["f1.fits"; "f2.fits"].

(** Two frames in R, registered and calibrated. *)
Definition clear_night : external :=
  observatory (λ _ _, Some (header "TEL1" "R"))
              (λ _, all_registered)
              (λ _ filenames, Some (some_calibration filenames))
              [].

(** Two frames in R, none of which registers. *)
Definition cloudy_night : external :=
  observatory (λ _ _, Some (header "TEL1" "R"))
              (λ _, none_registered)
              (λ _ filenames, Some (some_calibration filenames))
              [].

(** Two frames without filter, all registered. *)
Definition unfiltered_night : external :=
  observatory (λ _ _, Some (header "TEL1" "clear"))
              (λ _, all_registered)
              (λ _ filenames, Some (some_calibration filenames))
              [].

(** Two frames without filter, none of which registers. *)
Definition unfiltered_cloudy_night : external :=
  observatory (λ _ _, Some (header "TEL1" "clear"))
              (λ _, none_registered)
              (λ _ filenames, Some (some_calibration filenames))
              [].

(** A header that carries two of the instrument keys. *)
Definition two_key_header : gmap string string :=
  <["PPINSTRU" := "TEL1CAM"]> (header "TEL1" "R").

Definition two_key_night : external :=
  observatory (λ _ _, Some two_key_header)
              (λ _, all_registered)
              (λ _ filenames, Some (some_calibration filenames))
              [].

(** Files whose name starts with [bad] cannot be opened. *)
Definition damaged_night : external :=
  observatory (λ _ filename,
                 if String.prefix "bad" filename then None
                 else Some (header "TEL1" "R"))
              (λ _, all_registered)
              (λ _ filenames, Some (some_calibration filenames))
              [].

(** [f2.fits] comes from another instrument. *)
Definition mixed_night : external :=
  observatory (λ _ filename,
                 if String.eqb filename "f2.fits"
                 then Some (header "TEL2" "R")
                 else Some (header "TEL1" "R"))
              (λ _, all_registered)
              (λ _ filenames, Some (some_calibration filenames))
              [].

(** A tree with the data sets A (three frames), B (none) and C (two). *)
Definition tree : list (string * list string * list string) :=
  [("/data", ["A"; "B"; "C"], ["README"]);
   ("/data/A", [], ["img3.fits"; "img1.fits"; "notes.md"; "img2.fits"]);
   ("/data/B", [], ["flat.fits"]);
   ("/data/C", [], ["img2.FTS"; "img1.FTS"])].

Definition survey : external :=
  observatory (λ _ _, Some (header "TEL1" "R"))
              (λ _, all_registered)
              (λ _ filenames, Some (some_calibration filenames))
              tree.

(** The same tree; the calibration of A gives no result. *)
Definition survey_without_calibration_in_A : external :=
  observatory (λ _ _, Some (header "TEL1" "R"))
              (λ _, all_registered)
              (λ dir filenames,
                 if String.eqb dir "/data/A" then None
                 else Some (some_calibration filenames))
              tree.

(** The same tree; no frame of A registers. *)
Definition survey_without_registration_in_A : external :=
  observatory (λ _ _, Some (header "TEL1" "R"))
              (λ dir filenames,
                 if String.eqb dir "/data/A" then none_registered filenames
                 else all_registered filenames)
              (λ _ filenames, Some (some_calibration filenames))
              tree.

(** The walk of the tree when it reaches A, the files of A and the
    directories after A. *)
Definition before_A : world := {|
  cwd := "/data";
  use_diagnostics_summary := true;
  pp_process_idx := 0;
  man_targetname := None;
  trace := [CreateSummary; Printed (NothingToDoIn "/data")]
|}.

Definition files_of_A : list string :=
  ["img3.fits"; "img1.fits"; "notes.md"; "img2.fits"].

Definition after_A : list (string * list string * list string) :=
  [("/data/B", [], ["flat.fits"]);
   ("/data/C", [], ["img2.FTS"; "img1.FTS"])].

(** The compiled pattern for the prefix [img]. *)
Definition img_regex : list item :=
  default [] (re_compile (dataset_pattern "img")).

(** Two frames whose headers hold none of the instrument keys. *)
Definition untagged_night : external :=
  observatory (λ _ _, Some {["FILTER" := "R"]})
              (λ _, all_registered)
              (λ _ filenames, Some (some_calibration filenames))
              [].

(** Two frames whose headers hold none of the filter keys. *)
Definition filterless_night : external :=
  observatory (λ _ _, Some {["INSTRUME" := "TEL1"]})
              (λ _, all_registered)
              (λ _ filenames, Some (some_calibration filenames))
              [].


(** Two frames in a filter that the instrument does not translate. *)
Definition odd_filter_night : external :=
  observatory (λ _ _, Some (header "TEL1" "Z"))
              (λ _, all_registered)
              (λ _ filenames, Some (some_calibration filenames))
              [].

(** [f2.fits] was taken without filter, [f1.fits] in R. *)
Definition two_filter_night : external :=
  observatory (λ _ filename,
                 if String.eqb filename "f2.fits"
                 then Some (header "TEL1" "clear")
                 else Some (header "TEL1" "R"))
              (λ _, all_registered)
              (λ _ filenames, Some (some_calibration filenames))
              [].

(** The tree before the data set A. *)
Definition above_A : list (string * list string * list string) :=
  [("/data", ["A"; "B"; "C"], ["README"])].

End Examples.


(** * Properties *)

(** ** The order on file names *)

Global Instance string_le_total : Total string_le.
Proof. intros s1 s2. apply String.leb_total. Qed.

Lemma dataset_frames_sorted regex files :
  Sorted string_le (dataset_frames regex files).
Proof. apply (Sorted_merge_sort string_le). Qed.

Lemma dataset_frames_matches regex files :
  dataset_frames regex files ≡ₚ List.filter (re_match regex) files.
Proof. apply (merge_sort_Permutation string_le). Qed.

(** ** What the pattern selects *)

Lemma list_ascii_of_string_app s1 s2 :
  list_ascii_of_string (s1 ++ s2) =
  list_ascii_of_string s1 ++ list_ascii_of_string s2.
Proof. induction s1 as [|c s1 IH]; simpl; [done|by rewrite IH]. Qed.

Lemma tokenize_ordinary c s :
  ordinary c = true →
  tokenize None (c :: s) = cons (TAtom (Lit c)) <$> tokenize None s.
Proof.
  destruct c as [[] [] [] [] [] [] [] []]; intros Hc;
    try (by vm_compute in Hc); reflexivity.
Qed.

Lemma tokenize_plain p s :
  Forall (λ c, ordinary c = true) p →
  tokenize None (p ++ s) =
  app ((λ c, TAtom (Lit c)) <$> p) <$> tokenize None s.
Proof.
  induction 1 as [|c p Hc _ IH]; simpl app.
  - by destruct (tokenize None s).
  - rewrite tokenize_ordinary, IH by done.
    by destruct (tokenize None s).
Qed.

Lemma items_of_plain p a ts :
  items_of (((λ c, TAtom (Lit c)) <$> p) ++ TAtom a :: ts) =
  app ((λ c, One (Lit c)) <$> p) <$> items_of (TAtom a :: ts).
Proof.
  induction p as [|c p IH].
  - change (items_of (TAtom a :: ts) = app [] <$> items_of (TAtom a :: ts)).
    by destruct (items_of (TAtom a :: ts)).
  - change (items_of (TAtom (Lit c) ::
              ((λ c, TAtom (Lit c)) <$> p) ++ TAtom a :: ts) =
            app (One (Lit c) :: ((λ c, One (Lit c)) <$> p)) <$>
              items_of (TAtom a :: ts)).
    assert (Hnext : items_of (TAtom (Lit c) ::
                      ((λ c, TAtom (Lit c)) <$> p) ++ TAtom a :: ts) =
                    cons (One (Lit c)) <$>
                      items_of (((λ c, TAtom (Lit c)) <$> p) ++ TAtom a :: ts)).
    { by destruct p. }
    rewrite Hnext, IH. by destruct (items_of (TAtom a :: ts)).
Qed.

(** The pattern compiled for a plain prefix: the prefix, any characters,
    one character of the set, the end. *)
Lemma re_compile_dataset_pattern prefix :
  plain prefix →
  re_compile (dataset_pattern prefix) =
  Some (((λ c, One (Lit c)) <$> list_ascii_of_string prefix) ++
        [Many AnyChar; One (OneOf extension_set); Eol]).
Proof.
  intros Hplain. unfold re_compile, dataset_pattern.
  rewrite (list_ascii_of_string_app "^").
  rewrite (list_ascii_of_string_app prefix).
  change (list_ascii_of_string "^" ++ ?l) with ("^"%char :: l).
  cbn [Ascii.eqb Bool.eqb]. rewrite tokenize_plain by done.
  change (tokenize None (list_ascii_of_string ".*[fits|FITS|Fits|fts|FTS]$"))
    with (Some [TAtom AnyChar; TStar; TAtom (OneOf extension_set); TDollar]).
  cbn [fmap option_fmap option_map mbind option_bind].
  by rewrite items_of_plain.
Qed.

Lemma match_here_plain p r s :
  match_here (((λ c, One (Lit c)) <$> p) ++ r) s = true ↔
  ∃ s', s = p ++ s' ∧ match_here r s' = true.
Proof.
  revert s. induction p as [|c p IH]; intros s; simpl.
  - split; [by exists s|by intros (s' & -> & ?)].
  - destruct s as [|c' s].
    + split; [done|by intros (s' & ? & ?)].
    + rewrite andb_true_iff, IH. split.
      * intros (Hc & s' & -> & Hr). apply Ascii.eqb_eq in Hc as ->.
        by exists s'.
      * intros (s' & Heq & Hr). injection Heq as -> ->.
        split; [apply Ascii.eqb_refl|]. by exists s'.
Qed.

Lemma match_here_many a r s :
  match_here (Many a :: r) s =
  match_here r s ||
  match s with
  | c :: s' => accepts a c && match_here (Many a :: r) s'
  | [] => false
  end.
Proof. by destruct s. Qed.

Lemma match_here_any r s :
  match_here (Many AnyChar :: r) s = true ↔
  ∃ middle rest, s = middle ++ rest ∧ (newline ∉ middle) ∧
                 match_here r rest = true.
Proof.
  induction s as [|c s IH]; rewrite match_here_many, orb_true_iff.
  - split.
    + intros [Hr|?]; [|done]. exists [], []. split; [done|].
      split; [apply not_elem_of_nil|done].
    + intros (middle & rest & Heq & _ & Hr).
      symmetry in Heq. apply app_eq_nil in Heq as [-> ->]. by left.
  - rewrite andb_true_iff, IH. split.
    + intros [Hr|(Hc & middle & rest & -> & Hnl & Hr)].
      * exists [], (c :: s). split; [done|].
        split; [apply not_elem_of_nil|done].
      * exists (c :: middle), rest. split; [done|]. split; [|done].
        apply not_elem_of_cons. split; [|done].
        intros <-. by vm_compute in Hc.
    + intros (middle & rest & Heq & Hnl & Hr).
      destruct middle as [|c' middle]; simpl in Heq.
      * left. by rewrite Heq.
      * injection Heq as <- ->. apply not_elem_of_cons in Hnl as [Hc Hnl].
        right. split; [|by exists middle, rest].
        simpl. apply negb_true_iff, Ascii.eqb_neq. congruence.
Qed.

Lemma match_here_last cs s :
  match_here [One (OneOf cs); Eol] s = true ↔
  ∃ c, mem c cs = true ∧ (s = [c] ∨ s = [c; newline]).
Proof.
  destruct s as [|c [|c' [|c'' s]]]; simpl.
  - split; [done|]. by intros (c & _ & [?|?]).
  - rewrite andb_true_r. split.
    + intros Hc. exists c. auto.
    + by intros (c0 & Hc & [[= ->]|?]).
  - rewrite andb_true_iff. split.
    + intros [Hc Hnl]. apply Ascii.eqb_eq in Hnl as ->. exists c. auto.
    + intros (c0 & Hc & [?|[= -> ->]]); [done|].
      split; [done|apply Ascii.eqb_refl].
  - rewrite andb_false_r. split; [done|]. by intros (c0 & _ & [?|?]).
Qed.

(** X21. For a plain prefix a name is selected exactly when it starts
    with the prefix and its last character, a final newline apart, is one
    of the set, with no newline before it. The extensions play no other
    part. *)
Lemma dataset_pattern_selects prefix regex filename :
  plain prefix →
  re_compile (dataset_pattern prefix) = Some regex →
  re_match regex filename = true ↔
  ∃ middle c,
    mem c extension_set = true ∧ (newline ∉ middle) ∧
    (list_ascii_of_string filename =
       list_ascii_of_string prefix ++ middle ++ [c] ∨
     list_ascii_of_string filename =
       list_ascii_of_string prefix ++ middle ++ [c; newline]).
Proof.
  intros Hplain Hre.
  rewrite re_compile_dataset_pattern in Hre by done.
  injection Hre as <-. unfold re_match. rewrite match_here_plain. split.
  - intros (s' & Heq & Hm).
    apply match_here_any in Hm as (middle & rest & -> & Hnl & Hm).
    apply match_here_last in Hm as (c & Hc & Hrest).
    exists middle, c. rewrite Heq.
    destruct Hrest as [-> | ->]; auto.
  - intros (middle & c & Hc & Hnl & Heq).
    destruct Heq as [Heq|Heq]; rewrite Heq; eexists; (split; [done|]);
      apply match_here_any; eexists middle, _; (split; [done|]);
      (split; [done|]); apply match_here_last; exists c; auto.
Qed.

(** ** What a computation records *)

Lemma frame_refl w : frame w w [].
Proof. unfold frame. rewrite app_nil_r. auto. Qed.

Lemma frame_trans w1 w2 w3 evs1 evs2 :
  frame w1 w2 evs1 → frame w2 w3 evs2 → frame w1 w3 (evs1 ++ evs2).
Proof.
  intros (Ht1 & Hc1 & Hs1 & Hm1) (Ht2 & Hc2 & Hs2 & Hm2).
  repeat split; try congruence.
  rewrite Ht2, Ht1. symmetry. apply app_assoc.
Qed.

Lemma frame_extend w evs : frame w (extend w evs) evs.
Proof. repeat split. Qed.

Section Emits.

Context {A : Type} (P : event → Prop).

Lemma emits_silent (m : M A) :
  (∀ w, (m w).1 = w) → emits P m.
Proof.
  intros H w. exists []. rewrite H. split; [apply frame_refl | constructor].
Qed.

Lemma emits_ret (a : A) : emits P (ret a).
Proof. by apply emits_silent. Qed.

Lemma emits_raise e : emits P (@raise A e).
Proof. by apply emits_silent. Qed.

Lemma emits_return_ v : emits P (@return_ A v).
Proof. by apply emits_silent. Qed.

End Emits.

Lemma emits_emit P e : P e → emits P (emit e).
Proof.
  intros He w. exists [e]. split; [apply frame_extend | by constructor].
Qed.

Lemma emits_getcwd P : emits P getcwd.
Proof. by apply emits_silent. Qed.

Lemma emits_get_use_diagnostics_summary P :
  emits P get_use_diagnostics_summary.
Proof. by apply emits_silent. Qed.

Lemma emits_get_man_targetname P : emits P get_man_targetname.
Proof. by apply emits_silent. Qed.

Lemma emits_increment_pp_process_idx P : emits P increment_pp_process_idx.
Proof.
  intros w. exists []. split; [|constructor].
  unfold frame. simpl. rewrite app_nil_r. auto.
Qed.

Lemma emits_bind {A B} P (m : M A) (k : A → M B) :
  emits P m → (∀ a, emits P (k a)) → emits P (bind m k).
Proof.
  intros Hm Hk w. destruct (Hm w) as (evs1 & Hf1 & Hall1).
  unfold bind. destruct (m w) as [w1 [a | v | e]]; simpl in *.
  - destruct (Hk a w1) as (evs2 & Hf2 & Hall2).
    exists (evs1 ++ evs2). split; [by eapply frame_trans|].
    by apply Forall_app.
  - by exists evs1.
  - by exists evs1.
Qed.

Lemma emits_for_each {A} P (l : list A) (body : A → M unit) :
  (∀ x, emits P (body x)) → emits P (for_each l body).
Proof.
  intros Hbody. induction l as [|x l IH]; simpl.
  - apply emits_ret.
  - apply emits_bind; auto.
Qed.

Lemma emits_call P (body : M unit) : emits P body → emits P (call body).
Proof.
  intros Hm w. destruct (Hm w) as (evs & Hf & Hall).
  exists evs. unfold call. by destruct (body w) as [w1 [a | v | e]].
Qed.

Lemma emits_add_to_summary (P : event → Prop) m :
  P (InsertIntoSummary m) → emits P (add_to_summary m).
Proof.
  intros HP. unfold add_to_summary. apply emits_bind.
  - apply emits_get_use_diagnostics_summary.
  - intros [|]; [by apply emits_emit | apply emits_ret].
Qed.

(** A computation that starts by recording where it is. *)
Lemma marker_first {A} P (f : string → event) (k : string → M A) :
  (∀ dir, emits P (k dir)) →
  ∀ w, ∃ evs,
    frame w ((let* dir := getcwd in emit (f dir) >> k dir) w).1
          (f (cwd w) :: evs) ∧
    Forall P evs.
Proof.
  intros Hk w. unfold bind at 1 2. simpl.
  destruct (Hk (cwd w) (extend w [f (cwd w)])) as (evs & Hf & Hall).
  exists evs. split; [|done].
  exact (frame_trans _ _ _ [_] evs (frame_extend w _) Hf).
Qed.

Create HintDb emits.
#[export] Hint Resolve emits_ret emits_raise emits_return_ emits_getcwd
  emits_get_use_diagnostics_summary emits_get_man_targetname
  emits_increment_pp_process_idx emits_for_each emits_call : emits.

(** One step of a proof that a computation [emits P]: split a sequence,
    a conditional or a match, or close a primitive. *)
Ltac emits_step :=
  match goal with
  | |- emits _ (bind _ _) => apply emits_bind; [|intros]
  | |- emits _ (emit _) => apply emits_emit; exact I
  | |- emits _ (add_to_summary _) => apply emits_add_to_summary; exact I
  | |- emits _ (if ?c then _ else _) => destruct c
  | |- emits _ (match ?x with _ => _ end) => destruct x
  | |- emits _ _ => solve [eauto with emits]
  end.

Section Properties.

Context (conf : pp_conf) (ext : external).

Lemma emits_header_loop P fuel :
  (∀ f, P (FitsOpen f)) → (∀ l m, P (Logging l m)) → (∀ m, P (Printed m)) →
  ∀ idx filenames instruments filters,
    emits P (header_loop conf ext fuel idx filenames instruments filters).
Proof.
  intros Hopen Hlog Hprint.
  induction fuel as [|fuel IH]; intros; simpl.
  - apply emits_ret.
  - destruct (filenames !! idx); [|apply emits_ret].
    apply emits_bind; [apply emits_getcwd|intros dir].
    apply emits_bind; [by apply emits_emit|intros _].
    destruct (fits_open ext dir s); [apply IH|].
    apply emits_bind; [by apply emits_emit|intros _].
    apply emits_bind; [by apply emits_emit|intros _].
    apply IH.
Qed.

Lemma emits_report_tags (P : event → Prop) filenames tags :
  (∀ l m, P (Logging l m)) → emits P (report_tags filenames tags).
Proof.
  intros Hlog. unfold report_tags. apply emits_for_each. intros i.
  destruct (filenames !! i); [|apply emits_raise].
  destruct (tags !! i); [by apply emits_emit|apply emits_raise].
Qed.

Lemma emits_subscript {V} P (d : gmap string V) key :
  emits P (subscript d key).
Proof. unfold subscript. destruct (d !! key); auto with emits. Qed.

Lemma emits_first P tags : emits P (first tags).
Proof. unfold first. destruct tags; auto with emits. Qed.

Lemma emits_validate_batch filenames instruments filters :
  emits pre_stage (validate_batch conf filenames instruments filters).
Proof.
  unfold validate_batch.
  repeat first
    [ apply emits_report_tags; intros; exact I
    | apply emits_subscript
    | apply emits_first
    | emits_step ].
Qed.

Lemma emits_run_stages filenames telescope obsparam filtername :
  emits inner (run_stages conf ext filenames telescope obsparam filtername).
Proof. unfold run_stages. repeat emits_step. Qed.

(** The call marker comes first; the inspection and the validation
    follow, and they invoke no stage. *)
Lemma identify_trace filenames w :
  ∃ evs, frame w (identify conf ext filenames w).1
               (RunThePipeline (cwd w) filenames :: evs) ∧
         Forall pre_stage evs.
Proof.
  unfold identify. apply marker_first. intros dir. unfold read_headers.
  repeat first
    [ apply emits_header_loop; intros; exact I
    | apply emits_validate_batch
    | emits_step ].
Qed.

(** ** The four ways through the stages *)

Ltac run_path :=
  unfold run_stages, add_to_summary, bind, getcwd, emit, return_, ret,
    raise, get_use_diagnostics_summary, get_man_targetname, extend, summary;
  simpl.

Ltac trace_eq :=
  simpl; unfold extend; simpl; rewrite <- ?app_assoc; reflexivity.

(** Filter without calibration: the run leaves after the registration. *)
Lemma run_stages_no_filter filenames telescope obsparam w :
  run_stages conf ext filenames telescope obsparam None w =
  (extend w
     ([Invoke Prepare filenames; Printed (Banner Register);
       Invoke Register filenames] ++
      summary (use_diagnostics_summary w)
        (registration_summary
           (register_stage ext (cwd w) filenames telescope obsparam)
           filenames) ++
      [Logging INFO (NothingElseForFilter None);
       Printed (NothingElseForFilter None)]),
   Return 0%Z).
Proof. run_path. destruct (use_diagnostics_summary w); trace_eq. Qed.

(** No frame registered: the run records the abort and leaves. *)
Lemma run_stages_no_registration filenames telescope obsparam manfilter w :
  goodfits (register_stage ext (cwd w) filenames telescope obsparam) = [] →
  run_stages conf ext filenames telescope obsparam (Some manfilter) w =
  (extend w
     ([Invoke Prepare filenames; Printed (Banner Register);
       Invoke Register filenames] ++
      summary (use_diagnostics_summary w)
        (registration_summary
           (register_stage ext (cwd w) filenames telescope obsparam)
           filenames) ++
      [Logging INFO NothingElseForImageSet; Printed NothingElseForImageSet;
       DiagAbort "pp_registration"]),
   Return 0%Z).
Proof.
  intros Hgood. run_path. rewrite Hgood. simpl.
  destruct (use_diagnostics_summary w); trace_eq.
Qed.

(** No usable calibration: the run records the abort and exits. *)
Lemma run_stages_no_calibration filenames telescope obsparam manfilter w :
  let registration :=
    register_stage ext (cwd w) filenames telescope obsparam in
  let phot :=
    photometry_stage ext (cwd w) (goodfits registration) (man_targetname w)
                     telescope obsparam in
  goodfits registration ≠ [] →
  calibrate_stage conf ext (cwd w) (goodfits registration) manfilter obsparam
    = None →
  run_stages conf ext filenames telescope obsparam (Some manfilter) w =
  (extend w
     ([Invoke Prepare filenames; Printed (Banner Register);
       Invoke Register filenames] ++
      summary (use_diagnostics_summary w)
        (registration_summary registration filenames) ++
      [Printed (Banner Photometry); Invoke Photometry (goodfits registration)] ++
      summary (use_diagnostics_summary w) (photometry_summary phot) ++
      [Printed (Banner Calibrate); Invoke Calibrate (goodfits registration);
       Printed NothingToDo; Logging ERROR NothingToDoCalibrate;
       DiagAbort "pp_calibrate"]),
   Raise (SystemExit (Some 1%Z))).
Proof.
  intros registration phot Hgood Hcal. subst registration phot.
  run_path. rewrite Hcal.
  destruct (goodfits _) eqn:Hg; [done|]. simpl.
  destruct (use_diagnostics_summary w); trace_eq.
Qed.

(** All stages run. *)
Lemma run_stages_done filenames telescope obsparam manfilter calibration w :
  let registration :=
    register_stage ext (cwd w) filenames telescope obsparam in
  let phot :=
    photometry_stage ext (cwd w) (goodfits registration) (man_targetname w)
                     telescope obsparam in
  let distillate :=
    pp_distill ext (cwd w) (catalogs calibration) (man_targetname w) in
  goodfits registration ≠ [] →
  calibrate_stage conf ext (cwd w) (goodfits registration) manfilter obsparam
    = Some calibration →
  run_stages conf ext filenames telescope obsparam (Some manfilter) w =
  (extend w
     ([Invoke Prepare filenames; Printed (Banner Register);
       Invoke Register filenames] ++
      summary (use_diagnostics_summary w)
        (registration_summary registration filenames) ++
      [Printed (Banner Photometry); Invoke Photometry (goodfits registration)] ++
      summary (use_diagnostics_summary w) (photometry_summary phot) ++
      [Printed (Banner Calibrate); Invoke Calibrate (goodfits registration)] ++
      summary (use_diagnostics_summary w) (calibration_summary calibration) ++
      [Printed (Banner Distill); Invoke Distill (catalogs calibration)] ++
      summary (use_diagnostics_summary w) (distill_summary distillate) ++
      [Printed DoneMessage; Logging INFO SuccessfullyDone; GcCollect]),
   Val tt).
Proof.
  intros registration phot distillate Hgood Hcal.
  subst registration phot distillate.
  run_path. rewrite Hcal.
  destruct (goodfits _) eqn:Hg; [done|]. simpl.
  destruct (use_diagnostics_summary w); trace_eq.
Qed.

(** After a successful identification the run is its stages. *)
Lemma run_the_pipeline_identified filenames w w1 fs telescope obsparam
    filtername :
  identify conf ext filenames w = (w1, Val (fs, telescope, obsparam, filtername)) →
  run_the_pipeline conf ext filenames w =
  call (run_stages conf ext fs telescope obsparam filtername) w1.
Proof.
  intros Hid. unfold run_the_pipeline, call, bind. by rewrite Hid.
Qed.

Lemma run_the_pipeline_rejected filenames w w1 e :
  identify conf ext filenames w = (w1, Raise e) →
  run_the_pipeline conf ext filenames w = (w1, Raise e).
Proof.
  intros Hid. unfold run_the_pipeline, call, bind. by rewrite Hid.
Qed.

(** One call records its marker and, after it, neither a second marker
    nor a change of directory. *)
Lemma run_the_pipeline_trace filenames w :
  ∃ evs, frame w (run_the_pipeline conf ext filenames w).1
               (RunThePipeline (cwd w) filenames :: evs) ∧
         Forall inner evs.
Proof.
  destruct (identify_trace filenames w) as (evs1 & Hf1 & Hall1).
  assert (Hinner : Forall inner evs1).
  { eapply Forall_impl; [exact Hall1|]. by intros []. }
  unfold run_the_pipeline, call, bind.
  destruct (identify conf ext filenames w)
    as [w1 [[[[fs telescope] obsparam] filtername] | v | e]];
    simpl in *; [|by exists evs1..].
  destruct (emits_run_stages fs telescope obsparam filtername w1)
    as (evs2 & Hf2 & Hall2).
  exists (evs1 ++ evs2). split; [|by apply Forall_app].
  destruct (run_stages conf ext fs telescope obsparam filtername w1)
    as [w2 [[] | v | e]]; simpl in *;
    exact (frame_trans _ _ _ (_ :: evs1) evs2 Hf1 Hf2).
Qed.

(** What the inspection records concerns no stage. *)
Lemma pre_stage_silent evs :
  Forall pre_stage evs →
  stages_invoked evs = [] ∧ aborts evs = [] ∧ summaries evs = [] ∧
  reports evs = [].
Proof.
  induction 1 as [|e evs He _ IH]; [done|].
  destruct e; try done; exact IH.
Qed.

(** Project a trace made of the inspection [evs1] and one of the four
    ways through the stages. *)
Ltac project Hall :=
  destruct (pre_stage_silent _ Hall) as (Hs & Ha & Hm & Hr);
  unfold stages_invoked, aborts, summaries, reports in *;
  rewrite ?omap_app; cbn [omap list_omap app];
  rewrite ?Hs, ?Ha, ?Hm, ?Hr;
  try match goal with
      | |- context [summary (use_diagnostics_summary ?w) _] =>
        destruct (use_diagnostics_summary w)
      end;
  cbn [summary omap list_omap app last];
  try reflexivity.

(** ** The stops after the registration *)

(** C2. A run whose canonical filter name is the no-calibration value
    ([None]) prepares and registers the frames and then returns 0: the
    photometry, the calibration and the distillation are not invoked, and
    no abort is recorded. *)
Theorem no_calibration_filter_stops_after_register
    filenames w w1 fs telescope obsparam :
  identify conf ext filenames w = (w1, Val (fs, telescope, obsparam, None)) →
  ∃ w2 evs,
    run_the_pipeline conf ext filenames w = (w2, Val (Some 0%Z)) ∧
    frame w w2 evs ∧
    stages_invoked evs = [Prepare; Register] ∧
    aborts evs = [].
Proof.
  intros Hid.
  destruct (identify_trace filenames w) as (evs1 & Hf1 & Hall1).
  rewrite Hid in Hf1. simpl in Hf1.
  rewrite (run_the_pipeline_identified _ _ _ _ _ _ _ Hid).
  unfold call. rewrite run_stages_no_filter.
  eexists _, _. split; [reflexivity|].
  split; [exact (frame_trans _ _ _ _ _ Hf1 (frame_extend w1 _))|].
  split; project Hall1.
Qed.

(** C10. When the canonical filter name is the no-calibration value and
    the registration keeps no frame, the stop for the filter comes first:
    the run returns 0, nothing after the registration is invoked, and the
    abort of the registration is not recorded. *)
Theorem filter_stop_precedes_registration_abort
    filenames w w1 fs telescope obsparam :
  identify conf ext filenames w = (w1, Val (fs, telescope, obsparam, None)) →
  goodfits (register_stage ext (cwd w) fs telescope obsparam) = [] →
  ∃ w2 evs,
    run_the_pipeline conf ext filenames w = (w2, Val (Some 0%Z)) ∧
    frame w w2 evs ∧
    last (stages_invoked evs) = Some Register ∧
    "pp_registration" ∉ aborts evs.
Proof.
  intros Hid _.
  destruct (identify_trace filenames w) as (evs1 & Hf1 & Hall1).
  rewrite Hid in Hf1. simpl in Hf1.
  rewrite (run_the_pipeline_identified _ _ _ _ _ _ _ Hid).
  unfold call. rewrite run_stages_no_filter.
  eexists _, _. split; [reflexivity|].
  split; [exact (frame_trans _ _ _ _ _ Hf1 (frame_extend w1 _))|].
  split; project Hall1; apply not_elem_of_nil.
Qed.

(** C1, as amended. When the canonical filter name is a calibration
    filter and the registration keeps no frame, the run returns after the
    registration: the photometry, the calibration and the distillation are
    not invoked, and the abort of the registration is recorded before the
    run returns. *)
Theorem registration_failure_aborts
    filenames w w1 fs telescope obsparam manfilter :
  identify conf ext filenames w =
    (w1, Val (fs, telescope, obsparam, Some manfilter)) →
  goodfits (register_stage ext (cwd w) fs telescope obsparam) = [] →
  ∃ w2 evs,
    run_the_pipeline conf ext filenames w = (w2, Val (Some 0%Z)) ∧
    frame w w2 evs ∧
    stages_invoked evs = [Prepare; Register] ∧
    aborts evs = ["pp_registration"].
Proof.
  intros Hid Hgood.
  destruct (identify_trace filenames w) as (evs1 & Hf1 & Hall1).
  rewrite Hid in Hf1. simpl in Hf1.
  assert (Hcwd : cwd w1 = cwd w) by apply Hf1.
  rewrite (run_the_pipeline_identified _ _ _ _ _ _ _ Hid).
  unfold call. rewrite run_stages_no_registration by by rewrite Hcwd.
  eexists _, _. split; [reflexivity|].
  split; [exact (frame_trans _ _ _ _ _ Hf1 (frame_extend w1 _))|].
  split; project Hall1.
Qed.

(** ** The strings handed to the reporter *)

(** C9, as amended. In a run entered with the diagnostics summary
    switched on, the reporter receives one string after the registration,
    one after the photometry, one after a calibration that gave a result
    and one after the distillation, each right after its stage and before
    the next one; a stage that is not reached gets none, and neither does
    a calibration without result. In a run entered with the summary
    switched off the reporter receives nothing. *)
Theorem one_summary_per_completed_stage filenames w w2 r :
  run_the_pipeline conf ext filenames w = (w2, r) →
  ∃ evs, frame w w2 evs ∧
    (use_diagnostics_summary w = false → summaries evs = []) ∧
    (use_diagnostics_summary w = true →
     (stages_invoked evs = [] ∧ reports evs = []) ∨
     (∃ m, reports evs = [inl Register; inr m] ∧ r = Val (Some 0%Z)) ∨
     (∃ m1 m2,
        reports evs = [inl Register; inr m1; inl Photometry; inr m2;
                       inl Calibrate] ∧
        r = Raise (SystemExit (Some 1%Z))) ∨
     (∃ m1 m2 m3 m4,
        reports evs = [inl Register; inr m1; inl Photometry; inr m2;
                       inl Calibrate; inr m3; inl Distill; inr m4] ∧
        r = Val None)).
Proof.
  intros Hrun.
  destruct (identify_trace filenames w) as (evs1 & Hf1 & Hall1).
  destruct (identify conf ext filenames w)
    as [w1 [[[[fs telescope] obsparam] filtername] | v | e]] eqn:Hid;
    simpl in Hf1.
  - assert (Hflag : use_diagnostics_summary w1 = use_diagnostics_summary w)
      by apply Hf1.
    rewrite (run_the_pipeline_identified _ _ _ _ _ _ _ Hid) in Hrun.
    unfold call in Hrun.
    destruct filtername as [manfilter|].
    + destruct (goodfits (register_stage ext (cwd w1) fs telescope obsparam))
        eqn:Hgood.
      * rewrite run_stages_no_registration in Hrun by done.
        injection Hrun as <- <-. rewrite Hflag.
        eexists. split;
          [exact (frame_trans _ _ _ _ _ Hf1 (frame_extend w1 _))|].
        split; intros ->; [project Hall1|].
        right; left. eexists. split; [project Hall1|done].
      * destruct (calibrate_stage conf ext (cwd w1)
                    (goodfits (register_stage ext (cwd w1) fs telescope obsparam))
                    manfilter obsparam) as [calibration|] eqn:Hcal.
        -- rewrite (run_stages_done _ _ _ _ calibration) in Hrun;
             [|by rewrite Hgood|done].
           injection Hrun as <- <-. rewrite Hflag.
           eexists. split;
             [exact (frame_trans _ _ _ _ _ Hf1 (frame_extend w1 _))|].
           split; intros ->; [project Hall1|].
           do 3 right. eexists _, _, _, _. split; [project Hall1|done].
        -- rewrite run_stages_no_calibration in Hrun;
             [|by rewrite Hgood|done].
           injection Hrun as <- <-. rewrite Hflag.
           eexists. split;
             [exact (frame_trans _ _ _ _ _ Hf1 (frame_extend w1 _))|].
           split; intros ->; [project Hall1|].
           do 2 right; left. eexists _, _. split; [project Hall1|done].
    + rewrite run_stages_no_filter in Hrun.
      injection Hrun as <- <-. rewrite Hflag.
      eexists. split;
        [exact (frame_trans _ _ _ _ _ Hf1 (frame_extend w1 _))|].
      split; intros ->; [project Hall1|].
      right; left. eexists. split; [project Hall1|done].
  - unfold run_the_pipeline, call, bind in Hrun. rewrite Hid in Hrun.
    injection Hrun as <- <-.
    eexists. split; [exact Hf1|].
    split; intros _; [project Hall1|]. left. split; project Hall1.
  - rewrite (run_the_pipeline_rejected _ _ _ _ Hid) in Hrun.
    injection Hrun as <- <-.
    eexists. split; [exact Hf1|].
    split; intros _; [project Hall1|]. left. split; project Hall1.
Qed.

(** ** The walk over the directories *)

Lemma call_result (body : M unit) w :
  ∀ v, (call body w).2 ≠ Return v.
Proof. intros v. unfold call. by destruct (body w) as [w1 [[]| |]]. Qed.

Lemma inner_silent evs :
  Forall inner evs → calls evs = [] ∧ chdirs evs = [].
Proof.
  induction 1 as [|e evs He _ IH]; [done|].
  destruct e; try done; exact IH.
Qed.

Lemma dispatch_cons regex master root dirs files walk :
  dispatch conf ext regex master ((root, dirs, files) :: walk) =
  ((if decide (0 < length (dataset_frames regex files)) then
      emit (Printed (RunPipelineIn root)) >>
      chdir root >>
      run_the_pipeline conf ext (dataset_frames regex files) >>
      chdir master
    else emit (Printed (NothingToDoIn root))) >>
   dispatch conf ext regex master walk).
Proof. reflexivity. Qed.

(** A directory without matching file is passed over. *)
Lemma dispatch_nothing_to_do regex master root dirs files walk w :
  dataset_frames regex files = [] →
  dispatch conf ext regex master ((root, dirs, files) :: walk) w =
  dispatch conf ext regex master walk (extend w [Printed (NothingToDoIn root)]).
Proof. intros Hnone. rewrite dispatch_cons, Hnone. reflexivity. Qed.

(** A run that raises ends the walk where it stands. *)
Lemma dispatch_run_raises regex master root dirs files walk w w1 e :
  dataset_frames regex files ≠ [] →
  run_the_pipeline conf ext (dataset_frames regex files) (enter root w) =
    (w1, Raise e) →
  dispatch conf ext regex master ((root, dirs, files) :: walk) w =
  (w1, Raise e).
Proof.
  intros Hsome Hrun. rewrite dispatch_cons.
  destruct (decide (0 < length (dataset_frames regex files))) as [_|Hlen].
  - unfold bind, emit, chdir. simpl. unfold enter in Hrun.
    rewrite <- app_assoc. simpl. by rewrite Hrun.
  - destruct (dataset_frames regex files); [done|simpl in Hlen; lia].
Qed.

(** A run that comes back is followed by the rest of the walk. *)
Lemma dispatch_run_returns regex master root dirs files walk w w1 v :
  dataset_frames regex files ≠ [] →
  run_the_pipeline conf ext (dataset_frames regex files) (enter root w) =
    (w1, Val v) →
  dispatch conf ext regex master ((root, dirs, files) :: walk) w =
  dispatch conf ext regex master walk (leave master w1).
Proof.
  intros Hsome Hrun. rewrite dispatch_cons.
  destruct (decide (0 < length (dataset_frames regex files))) as [_|Hlen].
  - unfold bind at 1 2 3 4, emit, chdir. simpl. unfold enter in Hrun.
    rewrite <- app_assoc. simpl. by rewrite Hrun.
  - destruct (dataset_frames regex files); [done|simpl in Hlen; lia].
Qed.

(** C8, as amended. In the walk, a run that comes back to the dispatcher,
    be it after the abort of the registration, after the stop for a
    filter without calibration or after all stages, is followed by the
    walk over the remaining directories, from the master directory, its
    own directory having been entered once. A run that raises or exits
    (a calibration without result, a batch that fails the validation)
    ends the walk: the remaining directories are not attempted. *)
Theorem walk_goes_on_when_the_run_returns
    regex master root dirs files walk w w1 r :
  dataset_frames regex files ≠ [] →
  run_the_pipeline conf ext (dataset_frames regex files) (enter root w) =
    (w1, r) →
  (∃ v, r = Val v ∧
        dispatch conf ext regex master ((root, dirs, files) :: walk) w =
          dispatch conf ext regex master walk (leave master w1) ∧
        cwd (leave master w1) = master ∧
        ∃ evs, trace (leave master w1) = trace w ++ evs ∧
               calls evs = [(root, dataset_frames regex files)]) ∨
  (∃ e, r = Raise e ∧
        dispatch conf ext regex master ((root, dirs, files) :: walk) w =
          (w1, Raise e)).
Proof.
  intros Hsome Hrun. destruct r as [v|v|e].
  - left. exists v. split; [done|].
    split; [by eapply dispatch_run_returns|]. split; [done|].
    destruct (run_the_pipeline_trace (dataset_frames regex files)
                (enter root w)) as (evs1 & Hf1 & Hall1).
    rewrite Hrun in Hf1. simpl in Hf1. destruct Hf1 as (Ht1 & _).
    destruct (inner_silent _ Hall1) as (Hcalls1 & _).
    exists ([Printed (RunPipelineIn root); Chdir root] ++
            RunThePipeline root (dataset_frames regex files) :: evs1 ++
            [Chdir master]).
    split.
    + simpl. rewrite Ht1. simpl. rewrite <- !app_assoc. done.
    + unfold calls in *. cbn [omap list_omap app].
      rewrite omap_app, Hcalls1. done.
  - exfalso. eapply call_result. unfold run_the_pipeline in Hrun.
    by rewrite Hrun.
  - right. exists e. split; [done|]. by eapply dispatch_run_raises.
Qed.

(** When every run comes back, the walk calls [run_the_pipeline] once for
    each data set, in the order of the walk, and is in the master
    directory after each of them. *)
Lemma dispatch_all_return regex master walk :
  (∀ root dirs files w',
     (root, dirs, files) ∈ walk → dataset_frames regex files ≠ [] →
     cwd w' = root →
     ∃ w'' v, run_the_pipeline conf ext (dataset_frames regex files) w' =
              (w'', Val v)) →
  ∀ w, cwd w = master →
  ∃ w2 evs,
    dispatch conf ext regex master walk w = (w2, Val tt) ∧
    trace w2 = trace w ++ evs ∧
    cwd w2 = master ∧
    calls evs = datasets regex walk ∧
    chdirs evs =
      flat_map (λ d, [d.1; master]) (datasets regex walk).
Proof.
  induction walk as [|[[root dirs] files] walk IH]; intros Hruns w Hcwd.
  - exists w, []. rewrite app_nil_r. done.
  - assert (Hrest : ∀ root dirs files w',
      (root, dirs, files) ∈ walk → dataset_frames regex files ≠ [] →
      cwd w' = root →
      ∃ w'' v, run_the_pipeline conf ext (dataset_frames regex files) w' =
               (w'', Val v)).
    { intros r d f w' Hin. apply (Hruns r d f).
      by apply list_elem_of_further. }
    destruct (dataset_frames regex files) as [|f fs] eqn:Hframes.
    + rewrite dispatch_nothing_to_do by done.
      destruct (IH Hrest (extend w [Printed (NothingToDoIn root)]) Hcwd)
        as (w2 & evs & Hd & Ht & Hc & Hcalls & Hch).
      exists w2, (Printed (NothingToDoIn root) :: evs).
      split; [done|]. split; [by rewrite Ht; simpl; rewrite <- app_assoc|].
      split; [done|]. unfold datasets. simpl. rewrite Hframes.
      by split.
    + destruct (Hruns root dirs files (enter root w)) as (w1 & v & Hrun);
        [apply list_elem_of_here|by rewrite Hframes|done|].
      destruct (run_the_pipeline_trace (dataset_frames regex files)
                  (enter root w)) as (evs1 & Hf1 & Hall1).
      rewrite Hrun in Hf1. simpl in Hf1. destruct Hf1 as (Ht1 & _).
      destruct (inner_silent _ Hall1) as (Hcalls1 & Hch1).
      rewrite (dispatch_run_returns regex master root dirs files walk
                 w w1 v ltac:(by rewrite Hframes) Hrun).
      destruct (IH Hrest (leave master w1) eq_refl)
        as (w2 & evs & Hd & Ht & Hc & Hcalls & Hch).
      exists w2,
        ([Printed (RunPipelineIn root); Chdir root] ++
         RunThePipeline root (dataset_frames regex files) :: evs1 ++
         Chdir master :: evs).
      split; [done|]. split.
      { rewrite Ht. simpl. rewrite Ht1. simpl.
        rewrite <- !app_assoc. done. }
      split; [done|].
      assert (Hdata : datasets regex ((root, dirs, files) :: walk) =
                      (root, dataset_frames regex files) ::
                      datasets regex walk).
      { unfold datasets. simpl. by rewrite Hframes. }
      rewrite Hdata. unfold calls, chdirs in *.
      cbn [omap list_omap app]. rewrite !omap_app.
      cbn [omap list_omap app flat_map fst].
      by rewrite Hcalls1, Hch1, Hcalls, Hch.
Qed.

Lemma datasets_sorted regex walk :
  Forall (λ d, Sorted string_le d.2) (datasets regex walk).
Proof.
  unfold datasets. induction walk as [|[[root dirs] files] walk IH]; simpl.
  - constructor.
  - destruct (dataset_frames regex files) as [|f fs] eqn:Hframes; [done|].
    constructor; [|done]. simpl. rewrite <- Hframes.
    apply dataset_frames_sorted.
Qed.

Lemma main_batch prefix target regex w :
  re_compile (dataset_pattern prefix) = Some regex →
  main conf ext (Some prefix) target ["all"] w =
  Some (dispatch conf ext regex (cwd w) (os_walk ext (cwd w))
                 (batch_start target w)).
Proof. intros Hre. unfold main. simpl. by rewrite Hre. Qed.

(** C7, as amended. In the batch mode, when every call of
    [run_the_pipeline] comes back, there is one call for each directory
    with matching files and none for the others, in the order of the
    walk and each with its matches sorted; every call is made in its
    directory and followed by the return to the master directory, in
    which the walk ends. *)
Theorem batch_runs_each_dataset_when_runs_return prefix target regex w :
  re_compile (dataset_pattern prefix) = Some regex →
  (∀ root dirs files w',
     (root, dirs, files) ∈ os_walk ext (cwd w) →
     dataset_frames regex files ≠ [] →
     cwd w' = root →
     ∃ w'' v, run_the_pipeline conf ext (dataset_frames regex files) w' =
              (w'', Val v)) →
  ∃ w2 evs,
    main conf ext (Some prefix) target ["all"] w = Some (w2, Val tt) ∧
    trace w2 = trace w ++ evs ∧
    cwd w2 = cwd w ∧
    calls evs = datasets regex (os_walk ext (cwd w)) ∧
    Forall (λ d, Sorted string_le d.2) (calls evs) ∧
    chdirs evs = flat_map (λ d, [d.1; cwd w]) (calls evs).
Proof.
  intros Hre Hruns. rewrite (main_batch _ _ _ _ Hre).
  destruct (dispatch_all_return regex (cwd w) (os_walk ext (cwd w)) Hruns
              (batch_start target w) eq_refl)
    as (w2 & evs & Hd & Ht & Hc & Hcalls & Hch).
  exists w2, (CreateSummary :: evs). rewrite Hd.
  split; [done|]. split.
  { rewrite Ht. simpl. by rewrite <- app_assoc. }
  split; [done|].
  change (calls (CreateSummary :: evs)) with (calls evs).
  change (chdirs (CreateSummary :: evs)) with (chdirs evs).
  rewrite Hcalls. split; [done|]. split; [apply datasets_sorted|done].
Qed.

(** ** The header loop *)

Lemma header_loop_scan (fuel : nat) :
  ∀ (done rest instruments filters : list string) w,
    (length rest ≤ fuel)%nat →
    (header_loop conf ext fuel (length done) (done ++ rest) instruments
                 filters w).2 =
    Val (done ++ (scan conf ext (cwd w) rest).1.1,
         instruments ++ (scan conf ext (cwd w) rest).1.2,
         filters ++ (scan conf ext (cwd w) rest).2).
Proof.
  induction fuel as [fuel IH] using lt_wf_ind.
  intros done rest instruments filters w Hfuel.
  destruct rest as [|filename rest].
  { assert (Hend : (done ++ []) !! length done = None).
    { apply lookup_ge_None. rewrite length_app. simpl. lia. }
    destruct fuel; simpl; rewrite ?Hend, !app_nil_r; done. }
  destruct fuel as [|fuel]; [simpl in Hfuel; lia|].
  simpl header_loop. rewrite list_lookup_middle by done.
  unfold bind at 1 2, getcwd, emit. cbn [fst snd cwd].
  destruct (fits_open ext (cwd w) filename) as [header|] eqn:Hopen.
  - pose proof (IH fuel ltac:(lia) (done ++ [filename]) rest) as Hnext.
    rewrite length_app in Hnext. simpl in Hnext.
    rewrite Nat.add_1_r, <- app_assoc in Hnext. simpl in Hnext.
    rewrite Hnext by (simpl in Hfuel; lia).
    simpl. rewrite Hopen.
    destruct (scan conf ext (cwd w) rest) as [[kept ins] fl]. simpl.
    by rewrite <- !app_assoc.
  - unfold bind at 1 2, emit. cbn [fst snd cwd].
    replace (delete (length done) (done ++ filename :: rest))
      with (done ++ rest).
    2:{ clear. induction done; simpl; [done|by f_equal]. }
    destruct rest as [|skipped rest].
    + assert (Hend : (done ++ []) !! S (length done) = None).
      { apply lookup_ge_None. rewrite length_app. simpl. lia. }
      simpl scan. rewrite Hopen.
      destruct fuel; simpl; rewrite ?Hend, !app_nil_r; done.
    + destruct fuel as [|fuel]; [simpl in Hfuel; lia|].
      pose proof (IH (S fuel) ltac:(lia) (done ++ [skipped]) rest) as Hnext.
      rewrite length_app in Hnext. simpl length in Hnext.
      rewrite Nat.add_1_r, <- app_assoc in Hnext. simpl app in Hnext.
      rewrite Hnext by (simpl in Hfuel; lia).
      simpl. rewrite Hopen.
      destruct (scan conf ext (cwd w) rest) as [[kept ins] fl]. simpl.
      by rewrite <- !app_assoc.
Qed.

(** The header loop computes [scan]: after a file that cannot be opened
    the next file is kept unread. *)
Lemma read_headers_scan filenames w :
  (read_headers conf ext filenames w).2 = Val (scan conf ext (cwd w) filenames).
Proof.
  unfold read_headers.
  pose proof (header_loop_scan (length filenames) [] filenames [] [] w
                (le_n _)) as Hloop.
  simpl in Hloop. rewrite Hloop.
  by destruct (scan conf ext (cwd w) filenames) as [[kept ins] fl].
Qed.

(** ** The header loop runs to its end *)

(** Fuel beyond the number of file names left changes nothing: the loop
    of [read_headers] ends because its iterator is exhausted. *)
Lemma header_loop_fuel (fuel fuel' idx : nat)
    (filenames instruments filters : list string) w :
  (length filenames - idx ≤ fuel)%nat →
  (length filenames - idx ≤ fuel')%nat →
  header_loop conf ext fuel idx filenames instruments filters w =
  header_loop conf ext fuel' idx filenames instruments filters w.
Proof.
  revert fuel' idx filenames instruments filters w.
  induction fuel as [|fuel IH]; intros fuel' idx filenames instruments
    filters w Hfuel Hfuel'.
  - assert (Hend : filenames !! idx = None).
    { apply lookup_ge_None. lia. }
    destruct fuel'; simpl; [done|]. by rewrite Hend.
  - destruct (filenames !! idx) as [filename|] eqn:Hnext.
    + apply lookup_lt_Some in Hnext as Hlt.
      destruct fuel' as [|fuel']; [lia|].
      simpl. rewrite Hnext. unfold bind, getcwd, emit. simpl.
      destruct (fits_open ext (cwd w) filename).
      * apply IH; lia.
      * apply IH; rewrite length_delete by eauto; lia.
    + destruct fuel'; simpl; by rewrite ?Hnext.
Qed.

End Properties.

(** * Further properties of the wrapper *)

(** ** How a computation may end *)

Section Stops.

Context {A : Type} (Q : exn → Prop) (R : Z → Prop).

Lemma stops_ret (a : A) : stops Q R (ret a).
Proof. by intros w. Qed.

Lemma stops_raise e : Q e → stops Q R (@raise A e).
Proof. by intros He w. Qed.

Lemma stops_return_ v : R v → stops Q R (@return_ A v).
Proof. by intros Hv w. Qed.

End Stops.

Lemma stops_emit Q R e : stops Q R (emit e).
Proof. by intros w. Qed.

Lemma stops_getcwd Q R : stops Q R getcwd.
Proof. by intros w. Qed.

Lemma stops_get_use_diagnostics_summary Q R :
  stops Q R get_use_diagnostics_summary.
Proof. by intros w. Qed.

Lemma stops_get_man_targetname Q R : stops Q R get_man_targetname.
Proof. by intros w. Qed.

Lemma stops_increment_pp_process_idx Q R :
  stops Q R increment_pp_process_idx.
Proof. by intros w. Qed.

Lemma stops_bind {A B} Q R (m : M A) (k : A → M B) :
  stops Q R m → (∀ a, stops Q R (k a)) → stops Q R (bind m k).
Proof.
  intros Hm Hk w. specialize (Hm w). unfold bind.
  destruct (m w) as [w1 [a | v | e]]; simpl in *; [apply Hk|done..].
Qed.

Lemma stops_for_each {A} Q R (l : list A) (body : A → M unit) :
  (∀ x, stops Q R (body x)) → stops Q R (for_each l body).
Proof.
  intros Hbody. induction l as [|x l IH]; simpl.
  - apply stops_ret.
  - apply stops_bind; auto.
Qed.

Lemma stops_add_to_summary Q R m : stops Q R (add_to_summary m).
Proof.
  unfold add_to_summary. apply stops_bind.
  - apply stops_get_use_diagnostics_summary.
  - intros [|]; [apply stops_emit | apply stops_ret].
Qed.

Section Steady.

Lemma steady_ret {A} (a : A) : steady (ret a).
Proof. by intros w. Qed.

Lemma steady_raise {A} e : steady (@raise A e).
Proof. by intros w. Qed.

Lemma steady_return_ {A} v : steady (@return_ A v).
Proof. by intros w. Qed.

Lemma steady_emit e : steady (emit e).
Proof. by intros w. Qed.

Lemma steady_getcwd : steady getcwd.
Proof. by intros w. Qed.

Lemma steady_get_use_diagnostics_summary : steady get_use_diagnostics_summary.
Proof. by intros w. Qed.

Lemma steady_get_man_targetname : steady get_man_targetname.
Proof. by intros w. Qed.

Lemma steady_bind {A B} (m : M A) (k : A → M B) :
  steady m → (∀ a, steady (k a)) → steady (bind m k).
Proof.
  intros Hm Hk w. specialize (Hm w). unfold bind.
  destruct (m w) as [w1 [a | v | e]]; simpl in *; [|done..].
  by rewrite Hk.
Qed.

Lemma steady_for_each {A} (l : list A) (body : A → M unit) :
  (∀ x, steady (body x)) → steady (for_each l body).
Proof.
  intros Hbody. induction l as [|x l IH]; simpl.
  - apply steady_ret.
  - apply steady_bind; auto.
Qed.

Lemma steady_add_to_summary m : steady (add_to_summary m).
Proof.
  unfold add_to_summary. apply steady_bind.
  - apply steady_get_use_diagnostics_summary.
  - intros [|]; [apply steady_emit | apply steady_ret].
Qed.

End Steady.

(** One step of a proof that a computation [stops Q R] or is [steady]. *)
Ltac stops_step :=
  match goal with
  | |- stops _ _ (bind _ _) => apply stops_bind; [|intros]
  | |- stops _ _ (emit _) => apply stops_emit
  | |- stops _ _ (add_to_summary _) => apply stops_add_to_summary
  | |- stops _ _ (ret _) => apply stops_ret
  | |- stops _ _ getcwd => apply stops_getcwd
  | |- stops _ _ get_man_targetname => apply stops_get_man_targetname
  | |- stops _ _ increment_pp_process_idx =>
    apply stops_increment_pp_process_idx
  | |- stops _ _ (if ?c then _ else _) => destruct c
  | |- stops _ _ (match ?x with _ => _ end) => destruct x
  end.

Ltac steady_step :=
  match goal with
  | |- steady (bind _ _) => apply steady_bind; [|intros]
  | |- steady (emit _) => apply steady_emit
  | |- steady (add_to_summary _) => apply steady_add_to_summary
  | |- steady (ret _) => apply steady_ret
  | |- steady (raise _) => apply steady_raise
  | |- steady (return_ _) => apply steady_return_
  | |- steady getcwd => apply steady_getcwd
  | |- steady get_man_targetname => apply steady_get_man_targetname
  | |- steady (if ?c then _ else _) => destruct c
  | |- steady (match ?x with _ => _ end) => destruct x
  end.

(** ** The header loop, file by file *)

Section Inspection.

Context (conf : pp_conf) (ext : external).

Lemma header_loop_events fuel :
  ∀ idx filenames instruments filters,
    emits header_event
          (header_loop conf ext fuel idx filenames instruments filters).
Proof.
  induction fuel as [|fuel IH]; intros; simpl.
  - apply emits_ret.
  - destruct (filenames !! idx); [|apply emits_ret].
    apply emits_bind; [apply emits_getcwd|intros dir].
    apply emits_bind; [by apply emits_emit|intros _].
    destruct (fits_open ext dir s); [apply IH|].
    apply emits_bind; [by apply emits_emit|intros _].
    apply emits_bind; [by apply emits_emit|intros _].
    apply IH.
Qed.

Lemma steady_header_loop fuel :
  ∀ idx filenames instruments filters,
    steady (header_loop conf ext fuel idx filenames instruments filters).
Proof.
  induction fuel as [|fuel IH]; intros; simpl.
  - apply steady_ret.
  - destruct (filenames !! idx); [|apply steady_ret].
    repeat steady_step; apply IH.
Qed.

Lemma stops_header_loop Q R fuel :
  ∀ idx filenames instruments filters,
    stops Q R (header_loop conf ext fuel idx filenames instruments filters).
Proof.
  induction fuel as [|fuel IH]; intros; simpl.
  - apply stops_ret.
  - destruct (filenames !! idx); [|apply stops_ret].
    repeat stops_step; apply IH.
Qed.

(** The header loop always comes to its end, with the lists of [scan],
    having recorded nothing but its own events. *)
Lemma read_headers_result filenames w :
  ∃ w' evs,
    read_headers conf ext filenames w =
      (w', Val (scan conf ext (cwd w) filenames)) ∧
    frame w w' evs ∧ Forall header_event evs ∧
    pp_process_idx w' = pp_process_idx w.
Proof.
  pose proof (read_headers_scan conf ext filenames w) as Hval.
  destruct (header_loop_events (length filenames) 0 filenames [] [] w)
    as (evs & Hf & Hall).
  pose proof (steady_header_loop (length filenames) 0 filenames [] [] w)
    as Hidx.
  unfold read_headers in *.
  destruct (header_loop conf ext (length filenames) 0 filenames [] [] w)
    as [w' r]. simpl in *. subst r. by exists w', evs.
Qed.

Lemma scan_readable dir filename rest header :
  fits_open ext dir filename = Some header →
  scan conf ext dir (filename :: rest) =
  (filename :: (scan conf ext dir rest).1.1,
   header_values (instrument_keys conf) header ++
     (scan conf ext dir rest).1.2,
   header_values (filter_keys conf) header ++ (scan conf ext dir rest).2).
Proof.
  intros Hopen. simpl. rewrite Hopen.
  by destruct (scan conf ext dir rest) as [[kept ins] fl].
Qed.

Lemma scan_unreadable dir filename skipped rest :
  fits_open ext dir filename = None →
  scan conf ext dir (filename :: skipped :: rest) =
  (skipped :: (scan conf ext dir rest).1.1,
   (scan conf ext dir rest).1.2, (scan conf ext dir rest).2).
Proof.
  intros Hopen. simpl scan at 1. rewrite Hopen.
  by destruct (scan conf ext dir rest) as [[kept ins] fl].
Qed.

Lemma scan_unreadable_last dir filename :
  fits_open ext dir filename = None →
  scan conf ext dir [filename] = ([], [], []).
Proof. intros Hopen. simpl. by rewrite Hopen. Qed.

(** A proof about [scan] goes by the length of the list, since [scan]
    steps over two names after a file that does not open. *)
Lemma scan_ind (P : list string → Prop) :
  P [] →
  (∀ filename rest, P rest → (∀ skipped rest', rest = skipped :: rest' →
                                P rest') →
                    P (filename :: rest)) →
  ∀ filenames, P filenames.
Proof.
  intros Hnil Hcons filenames.
  assert (Hboth : P filenames ∧ ∀ f rest, filenames = f :: rest → P rest).
  { induction filenames as [|f rest [IH1 IH2]].
    - split; [done|]. by intros.
    - split.
      + apply Hcons; [done|]. intros skipped rest' ->. by eapply IH2.
      + by intros ? ? [= <- <-]. }
  apply Hboth.
Qed.

(** X1. When every file of the batch opens, the header loop keeps all of
    them, in order, and the tags are the values that each file has for
    the candidate keys, file after file. *)
Theorem readable_batch_is_kept filenames w :
  Forall (λ f, is_Some (fits_open ext (cwd w) f)) filenames →
  (read_headers conf ext filenames w).2 =
  Val (filenames,
       filenames ≫= (λ f, from_option (header_values (instrument_keys conf))
                                      [] (fits_open ext (cwd w) f)),
       filenames ≫= (λ f, from_option (header_values (filter_keys conf))
                                      [] (fits_open ext (cwd w) f))).
Proof.
  intros Hall. rewrite read_headers_scan. f_equal.
  induction Hall as [|f rest [header Hopen] _ IH]; [done|].
  rewrite (scan_readable _ _ _ _ Hopen), IH. simpl. by rewrite Hopen.
Qed.

(** X2. When every file opens and its header holds exactly one of the
    instrument keys and exactly one of the filter keys, the two tag lists
    are aligned with the files: one tag per file, in the order of the
    files. *)
Theorem one_key_per_header_aligns_tags filenames instruments filters w :
  Forall2 (λ f tag, ∃ header,
             fits_open ext (cwd w) f = Some header ∧
             header_values (instrument_keys conf) header = [tag])
          filenames instruments →
  Forall2 (λ f tag, ∃ header,
             fits_open ext (cwd w) f = Some header ∧
             header_values (filter_keys conf) header = [tag])
          filenames filters →
  (read_headers conf ext filenames w).2 =
  Val (filenames, instruments, filters).
Proof.
  intros Hins. rewrite read_headers_scan. revert filters.
  induction Hins as [|f tag rest ins (header & Hopen & Htag) _ IH];
    intros filters Hfl.
  - by apply Forall2_nil_inv_l in Hfl as ->.
  - apply Forall2_cons_inv_l in Hfl
      as (ftag & fl & (header' & Hopen' & Hftag) & Hfl & ->).
    assert (header' = header) as -> by congruence.
    rewrite (scan_readable _ _ _ _ Hopen), Htag, Hftag.
    specialize (IH fl Hfl). injection IH as IH. by rewrite IH.
Qed.

(** X3. The header loop always comes to an end with its three lists, and
    the files that it keeps are files of the batch, in the order of the
    batch: the loop drops files and adds none. *)
Theorem kept_files_are_a_sublist filenames w :
  ∃ kept instruments filters,
    (read_headers conf ext filenames w).2 = Val (kept, instruments, filters) ∧
    kept `sublist_of` filenames.
Proof.
  rewrite read_headers_scan.
  exists (scan conf ext (cwd w) filenames).1.1,
    (scan conf ext (cwd w) filenames).1.2, (scan conf ext (cwd w) filenames).2.
  split; [by destruct (scan conf ext (cwd w) filenames) as [[kept ins] fl]|].
  induction filenames as [|f rest IH Hskip] using scan_ind.
  - done.
  - destruct (fits_open ext (cwd w) f) as [header|] eqn:Hopen.
    + rewrite (scan_readable _ _ _ _ Hopen). by apply sublist_skip.
    + destruct rest as [|skipped rest'].
      * rewrite scan_unreadable_last by done. apply sublist_nil_l.
      * rewrite scan_unreadable by done. simpl.
        apply sublist_cons, sublist_skip. by eapply Hskip.
Qed.

(** The header loop leaves no file exactly for the empty batch and for
    the batch of one file that does not open. *)
Lemma scan_nothing_kept dir filenames :
  (scan conf ext dir filenames).1.1 = [] ↔
  filenames = [] ∨ ∃ f, filenames = [f] ∧ fits_open ext dir f = None.
Proof.
  destruct filenames as [|f rest].
  - split; [by left|done].
  - destruct (fits_open ext dir f) as [header|] eqn:Hopen.
    + rewrite (scan_readable _ _ _ _ Hopen). simpl. split; [done|].
      intros [?|(f' & [= -> ->] & ?)]; [done|congruence].
    + destruct rest as [|skipped rest'].
      * rewrite scan_unreadable_last by done. split; [|done].
        intros _. right. by exists f.
      * rewrite scan_unreadable by done. simpl. split; [done|].
        by intros [?|(f' & ? & ?)].
Qed.

(** X4. After a file that does not open, the next file stays in the
    batch and gives no tag, whatever its header holds: the files before
    the two are kept with their tags, and the files after them are
    treated as a batch of their own. *)
Theorem file_after_unreadable_file_is_kept_unread before bad next after w :
  Forall (λ f, is_Some (fits_open ext (cwd w) f)) before →
  fits_open ext (cwd w) bad = None →
  ∃ kept instruments filters,
    (read_headers conf ext after w).2 = Val (kept, instruments, filters) ∧
    (read_headers conf ext (before ++ bad :: next :: after) w).2 =
    Val (before ++ next :: kept,
         (before ≫= (λ f, from_option (header_values (instrument_keys conf))
                                       [] (fits_open ext (cwd w) f))) ++
         instruments,
         (before ≫= (λ f, from_option (header_values (filter_keys conf))
                                       [] (fits_open ext (cwd w) f))) ++
         filters).
Proof.
  intros Hall Hbad. rewrite !read_headers_scan.
  exists (scan conf ext (cwd w) after).1.1,
    (scan conf ext (cwd w) after).1.2, (scan conf ext (cwd w) after).2.
  split; [by destruct (scan conf ext (cwd w) after) as [[kept ins] fl]|].
  f_equal. induction Hall as [|f rest [header Hopen] _ IH].
  - cbn [app]. by rewrite (scan_unreadable _ _ _ _ Hbad).
  - cbn [app]. rewrite (scan_readable _ _ _ _ Hopen), IH. simpl.
    by rewrite Hopen, <- !app_assoc.
Qed.

End Inspection.

(** ** The validation of the batch *)

Lemma homogeneous_remove_dups tags tag :
  homogeneous tags tag → remove_dups tags = [tag].
Proof.
  intros [Hsome Hall].
  pose proof (NoDup_remove_dups tags) as Hnodup.
  assert (Hin : ∀ t, t ∈ remove_dups tags → t = tag).
  { intros t Ht. apply Hall. by apply elem_of_remove_dups. }
  destruct (remove_dups tags) as [|a [|b rest]] eqn:Hdups.
  - destruct tags as [|t tags]; [done|].
    assert (Ht : t ∈ remove_dups (t :: tags)).
    { apply elem_of_remove_dups. apply list_elem_of_here. }
    rewrite Hdups in Ht. by apply elem_of_nil in Ht.
  - f_equal. apply Hin. apply list_elem_of_here.
  - assert (a = b) as ->.
    { rewrite (Hin a), (Hin b); [done|..].
      - apply list_elem_of_further, list_elem_of_here.
      - apply list_elem_of_here. }
    apply NoDup_cons in Hnodup as [Hnotin _].
    destruct Hnotin. apply list_elem_of_here.
Qed.

Lemma remove_dups_homogeneous tags :
  tags ≠ [] → ¬ (1 < length (remove_dups tags))%nat →
  ∃ tag rest, tags = tag :: rest ∧ homogeneous tags tag.
Proof.
  intros Hsome Hone. destruct tags as [|tag rest]; [done|].
  exists tag, rest. split; [done|]. split; [done|].
  assert (Hin : ∀ t, t ∈ tag :: rest → t ∈ remove_dups (tag :: rest)).
  { intros t. apply elem_of_remove_dups. }
  destruct (remove_dups (tag :: rest)) as [|a [|b l]] eqn:Hdups.
  - intros t Ht. apply Hin in Ht. by apply elem_of_nil in Ht.
  - intros t Ht. apply Hin, list_elem_of_singleton in Ht as ->.
    pose proof (Hin tag (list_elem_of_here _ _)) as Htag.
    by apply list_elem_of_singleton in Htag.
  - simpl in Hone. lia.
Qed.

Lemma bind_emit {B} e (k : unit → M B) w :
  bind (emit e) k w = k tt (extend w [e]).
Proof. reflexivity. Qed.

Lemma bind_assoc {A B C} (m : M A) (k1 : A → M B) (k2 : B → M C) w :
  bind (bind m k1) k2 w = bind m (λ a, bind (k1 a) k2) w.
Proof. unfold bind. by destruct (m w) as [w1 [| |]]. Qed.

(** What follows a computation that ends by raising is not run. *)
Lemma raise_absorbs {A B C} (m : M A) e (k : B → M C) w :
  (bind (bind m (λ _, @raise B e)) k w).1 = (m w).1 ∧
  (bind (bind m (λ _, @raise B e)) k w).2 =
  match (m w).2 with
  | Val _ => Raise e
  | Return v => Return v
  | Raise e' => Raise e'
  end.
Proof. unfold bind, raise. by destruct (m w) as [w1 [| |]]. Qed.

(** Lines 116-117 and 128-129, from the index [k] on: the pairs of the
    files and the tags at the same index are logged, up to the shorter of
    the two lists; a file without tag at its index raises. *)
Lemma report_tags_from (filenames tags : list string) (n k : nat) w :
  k + n = length filenames →
  frame w (for_each (seq k n) (λ i,
             match filenames !! i with
             | None => raise IndexError
             | Some filename =>
               match tags !! i with
               | None => raise IndexError
               | Some tag => emit (Logging ERROR (FileTag filename tag))
               end
             end) w).1
        ((λ p, Logging ERROR (FileTag p.1 p.2)) <$>
         zip (drop k filenames) (drop k tags)) ∧
  (for_each (seq k n) (λ i,
     match filenames !! i with
     | None => raise IndexError
     | Some filename =>
       match tags !! i with
       | None => raise IndexError
       | Some tag => emit (Logging ERROR (FileTag filename tag))
       end
     end) w).2 =
  if decide (length (drop k filenames) ≤ length (drop k tags))%nat
  then Val tt else Raise IndexError.
Proof.
  match goal with |- context [for_each _ ?b] => set (body := b) end.
  revert k w. induction n as [|n IH]; intros k w Hlen.
  - rewrite drop_ge by lia. simpl. split; [apply frame_refl|done].
  - destruct (filenames !! k) as [f|] eqn:Hf.
    2:{ apply lookup_ge_None in Hf. lia. }
    rewrite (drop_S _ _ _ Hf).
    assert (Hstep : for_each (seq k (S n)) body w =
                    match tags !! k with
                    | Some t => for_each (seq (S k) n) body
                                  (extend w [Logging ERROR (FileTag f t)])
                    | None => (w, Raise IndexError)
                    end).
    { cbn [seq for_each]. unfold bind, body at 1. rewrite Hf.
      by destruct (tags !! k). }
    rewrite Hstep. clear Hstep.
    destruct (tags !! k) as [t|] eqn:Ht.
    + rewrite (drop_S _ _ _ Ht).
      destruct (IH (S k) (extend w [Logging ERROR (FileTag f t)])
                  ltac:(lia)) as [Hframe Hres].
      split.
      * exact (frame_trans _ _ _ [_] _ (frame_extend w _) Hframe).
      * rewrite Hres. cbn [length]. repeat case_decide; done || lia.
    + rewrite (drop_ge tags) by by apply lookup_ge_None.
      rewrite zip_with_nil_r. cbn [fst snd length fmap list_fmap].
      split; [apply frame_refl|]. case_decide; [lia|done].
Qed.

Lemma report_tags_pairs (filenames tags : list string) w :
  frame w (report_tags filenames tags w).1
        ((λ p, Logging ERROR (FileTag p.1 p.2)) <$> zip filenames tags) ∧
  (report_tags filenames tags w).2 =
  if decide (length filenames ≤ length tags)%nat
  then Val tt else Raise IndexError.
Proof. by apply (report_tags_from filenames tags (length filenames) 0 w). Qed.

Section Validation.

Context (conf : pp_conf) (ext : external).

Ltac validate_path :=
  unfold validate_batch, bind, raise, ret, emit, subscript, first; simpl.

(** No file left: line 99. *)
Lemma validate_no_file instruments filters w :
  validate_batch conf [] instruments filters w = (w, Raise IOError).
Proof. reflexivity. Qed.

(** No instrument tag: lines 101-103. *)
Lemma validate_no_instrument filenames filters w :
  filenames ≠ [] →
  validate_batch conf filenames [] filters w =
  (w, Raise (KeyError "cannot identify telescope/instrument")).
Proof. intros Hsome. by destruct filenames. Qed.

(** No filter tag: lines 105-107. *)
Lemma validate_no_filter filenames instruments w :
  filenames ≠ [] → instruments ≠ [] →
  validate_batch conf filenames instruments [] w =
  (w, Raise (KeyError "cannot identify filter")).
Proof. intros Hf Hi. by destruct filenames, instruments. Qed.

(** Lines 98-110: the first three tests passed, the batch goes on to the
    test of the instruments. *)
Lemma validate_batch_tags filenames instruments filters w :
  filenames ≠ [] → instruments ≠ [] → filters ≠ [] →
  validate_batch conf filenames instruments filters w =
  ((if decide (1 < length (remove_dups instruments)) then
      @raise unit (NameError "instruemnts") >>
      emit (Logging ERROR (MultipleInstruments (remove_dups instruments))) >>
      report_tags filenames instruments >>
      raise (SystemExit None)
    else ret tt) >>
   let* tag := first instruments in
   let* telescope := subscript (instrument_identifiers conf) tag in
   let* obsparam := subscript (telescope_parameters conf) telescope in
   emit (Logging INFO
           (TelescopeFramesIdentified (length filenames) telescope)) >>
   (if decide (1 < length (remove_dups filters)) then
      emit (Printed (MultipleFilters (remove_dups filters))) >>
      emit (Logging ERROR (MultipleFilters (remove_dups filters))) >>
      report_tags filenames filters >>
      raise (SystemExit None)
    else ret tt) >>
   let* tag := first filters in
   let* filtername := subscript (filter_translations obsparam) tag in
   emit (Logging INFO
           (FilterFramesIdentified (length filenames) filtername)) >>
   emit (Printed (RunPipelineOn (length filenames) telescope filtername)) >>
   ret (telescope, obsparam, filtername)) w.
Proof. intros Hf Hi Hl. by destruct filenames, instruments, filters. Qed.

(** More than one instrument: line 113. *)
Lemma validate_mixed_instruments filenames instruments filters w :
  filenames ≠ [] → instruments ≠ [] → filters ≠ [] →
  (1 < length (remove_dups instruments))%nat →
  validate_batch conf filenames instruments filters w =
  (w, Raise (NameError "instruemnts")).
Proof.
  intros Hf Hi Hl Hmixed. rewrite validate_batch_tags by done.
  unfold bind at 1. by rewrite decide_True.
Qed.

(** One instrument: lines 120-130, up to the test of the filters. *)
Lemma validate_one_instrument filenames instruments filters tag telescope
    obsparam w :
  filenames ≠ [] → filters ≠ [] → homogeneous instruments tag →
  instrument_identifiers conf !! tag = Some telescope →
  telescope_parameters conf !! telescope = Some obsparam →
  validate_batch conf filenames instruments filters w =
  ((if decide (1 < length (remove_dups filters)) then
      emit (Printed (MultipleFilters (remove_dups filters))) >>
      emit (Logging ERROR (MultipleFilters (remove_dups filters))) >>
      report_tags filenames filters >>
      raise (SystemExit None)
    else ret tt) >>
   let* tag := first filters in
   let* filtername := subscript (filter_translations obsparam) tag in
   emit (Logging INFO
           (FilterFramesIdentified (length filenames) filtername)) >>
   emit (Printed (RunPipelineOn (length filenames) telescope filtername)) >>
   ret (telescope, obsparam, filtername))
    (extend w [Logging INFO
                 (TelescopeFramesIdentified (length filenames) telescope)]).
Proof.
  intros Hf Hl Hhom Hid Hpar.
  pose proof (homogeneous_remove_dups _ _ Hhom) as Hdups.
  destruct Hhom as [Hi Hall].
  rewrite validate_batch_tags by done.
  unfold bind at 1. rewrite Hdups, decide_False by (simpl; lia).
  destruct instruments as [|t rest]; [done|].
  assert (t = tag) as -> by (apply Hall, list_elem_of_here).
  unfold bind at 1 2 3 4, first, subscript, ret, emit. simpl.
  rewrite Hid. simpl. rewrite Hpar. reflexivity.
Qed.

(** An instrument tag that the configuration does not know: line 120. *)
Lemma validate_unknown_instrument filenames instruments filters tag w :
  filenames ≠ [] → filters ≠ [] → homogeneous instruments tag →
  instrument_identifiers conf !! tag = None →
  validate_batch conf filenames instruments filters w =
  (w, Raise (KeyError tag)).
Proof.
  intros Hf Hl Hhom Hid.
  pose proof (homogeneous_remove_dups _ _ Hhom) as Hdups.
  destruct Hhom as [Hi Hall].
  rewrite validate_batch_tags by done.
  unfold bind at 1. rewrite Hdups, decide_False by (simpl; lia).
  destruct instruments as [|t rest]; [done|].
  assert (t = tag) as -> by (apply Hall, list_elem_of_here).
  unfold bind at 1 2, first, subscript, ret. simpl. by rewrite Hid.
Qed.

(** A telescope without parameters: line 121. *)
Lemma validate_unknown_telescope filenames instruments filters tag
    telescope w :
  filenames ≠ [] → filters ≠ [] → homogeneous instruments tag →
  instrument_identifiers conf !! tag = Some telescope →
  telescope_parameters conf !! telescope = None →
  validate_batch conf filenames instruments filters w =
  (w, Raise (KeyError telescope)).
Proof.
  intros Hf Hl Hhom Hid Hpar.
  pose proof (homogeneous_remove_dups _ _ Hhom) as Hdups.
  destruct Hhom as [Hi Hall].
  rewrite validate_batch_tags by done.
  unfold bind at 1. rewrite Hdups, decide_False by (simpl; lia).
  destruct instruments as [|t rest]; [done|].
  assert (t = tag) as -> by (apply Hall, list_elem_of_here).
  unfold bind at 1 2 3, first, subscript, ret. simpl.
  rewrite Hid. simpl. by rewrite Hpar.
Qed.

(** More than one filter: lines 124-130. *)
Lemma validate_mixed_filters filenames instruments filters tag telescope
    obsparam w :
  filenames ≠ [] → filters ≠ [] → homogeneous instruments tag →
  instrument_identifiers conf !! tag = Some telescope →
  telescope_parameters conf !! telescope = Some obsparam →
  (1 < length (remove_dups filters))%nat →
  frame w (validate_batch conf filenames instruments filters w).1
        ([Logging INFO
            (TelescopeFramesIdentified (length filenames) telescope);
          Printed (MultipleFilters (remove_dups filters));
          Logging ERROR (MultipleFilters (remove_dups filters))] ++
         ((λ p, Logging ERROR (FileTag p.1 p.2)) <$> zip filenames filters)) ∧
  (validate_batch conf filenames instruments filters w).2 =
  if decide (length filenames ≤ length filters)%nat
  then Raise (SystemExit None) else Raise IndexError.
Proof.
  intros Hf Hl Hhom Hid Hpar Hmixed.
  rewrite (validate_one_instrument _ _ _ _ _ _ _ Hf Hl Hhom Hid Hpar).
  rewrite decide_True by done.
  rewrite bind_assoc, bind_emit, bind_assoc, bind_emit.
  match goal with
  | |- context [bind (bind (report_tags filenames filters) _) ?k ?W] =>
    set (W' := W);
    destruct (raise_absorbs (B:=unit) (report_tags filenames filters)
                (SystemExit None) k W') as [Hw Hr];
    destruct (report_tags_pairs filenames filters W') as [Hframe Hres]
  end.
  rewrite Hw, Hr, Hres.
  assert (Hpre : frame w W'
            [Logging INFO
               (TelescopeFramesIdentified (length filenames) telescope);
             Printed (MultipleFilters (remove_dups filters));
             Logging ERROR (MultipleFilters (remove_dups filters))]).
  { unfold frame, W', extend. cbn. by rewrite <- !app_assoc. }
  split; [exact (frame_trans _ _ _ _ _ Hpre Hframe)|by case_decide].
Qed.

(** One filter: lines 132-136. *)
Lemma validate_one_filter filenames instruments filters tag telescope
    obsparam ftag w :
  filenames ≠ [] → homogeneous instruments tag →
  instrument_identifiers conf !! tag = Some telescope →
  telescope_parameters conf !! telescope = Some obsparam →
  homogeneous filters ftag →
  validate_batch conf filenames instruments filters w =
  match filter_translations obsparam !! ftag with
  | Some filtername =>
    (extend w [Logging INFO
                 (TelescopeFramesIdentified (length filenames) telescope);
               Logging INFO
                 (FilterFramesIdentified (length filenames) filtername);
               Printed (RunPipelineOn (length filenames) telescope
                                      filtername)],
     Val (telescope, obsparam, filtername))
  | None =>
    (extend w [Logging INFO
                 (TelescopeFramesIdentified (length filenames) telescope)],
     Raise (KeyError ftag))
  end.
Proof.
  intros Hf Hhom Hid Hpar Hfhom.
  pose proof (homogeneous_remove_dups _ _ Hfhom) as Hdups.
  destruct Hfhom as [Hl Hall].
  rewrite (validate_one_instrument _ _ _ _ _ _ _ Hf Hl Hhom Hid Hpar).
  unfold bind at 1. rewrite Hdups, decide_False by (simpl; lia).
  destruct filters as [|t rest]; [done|].
  assert (t = ftag) as -> by (apply Hall, list_elem_of_here).
  unfold bind at 1 2, first, subscript, ret. cbn [fst snd].
  destruct (filter_translations obsparam !! ftag) as [filtername|];
    [|done].
  unfold bind, emit. cbn [fst snd]. unfold extend. cbn.
  by rewrite <- !app_assoc.
Qed.

(** The validation never leaves the function with [return]. *)
Lemma validate_batch_falls_through filenames instruments filters :
  stops (λ _, True) (λ _, False)
        (validate_batch conf filenames instruments filters).
Proof.
  assert (Hreport : ∀ fs tags, stops (λ _, True) (λ _, False)
                                     (report_tags fs tags)).
  { intros. unfold report_tags. apply stops_for_each. intros i.
    repeat (stops_step || by apply stops_raise). }
  unfold validate_batch, first, subscript.
  repeat (stops_step || apply Hreport || by apply stops_raise).
Qed.

(** With a file left, the validation does not raise [IOError]. *)
Lemma validate_batch_no_IOError filenames instruments filters :
  filenames ≠ [] →
  stops (λ e, e ≠ IOError) (λ _, True)
        (validate_batch conf filenames instruments filters).
Proof.
  intros Hsome.
  assert (Hreport : ∀ fs tags, stops (λ e, e ≠ IOError) (λ _, True)
                                     (report_tags fs tags)).
  { intros. unfold report_tags. apply stops_for_each. intros i.
    repeat (stops_step || by apply stops_raise). }
  unfold validate_batch, first, subscript.
  apply stops_bind.
  { case_decide; [by destruct filenames|apply stops_ret]. }
  intros _.
  repeat (stops_step || apply Hreport || by apply stops_raise).
Qed.

Lemma steady_validate_batch filenames instruments filters :
  steady (validate_batch conf filenames instruments filters).
Proof.
  assert (Hreport : ∀ fs tags, steady (report_tags fs tags)).
  { intros. unfold report_tags. apply steady_for_each. intros i.
    repeat steady_step. }
  unfold validate_batch, first, subscript.
  repeat (steady_step || apply Hreport).
Qed.

End Validation.

(** ** The identification as a whole *)

Section Identification.

Context (conf : pp_conf) (ext : external).

(** Lines 61-136 come to the validation of what the header loop leaves,
    in a world that holds the record of the entry and of the loop. *)
Lemma identify_result filenames w :
  ∃ w' evs,
    frame (entered conf w filenames) w' evs ∧ Forall header_event evs ∧
    pp_process_idx w' = S (pp_process_idx w) ∧
    identify conf ext filenames w =
    match validate_batch conf (scan conf ext (cwd w) filenames).1.1
                         (scan conf ext (cwd w) filenames).1.2
                         (scan conf ext (cwd w) filenames).2 w' with
    | (w1, Val (telescope, obsparam, filtername)) =>
      (w1, Val ((scan conf ext (cwd w) filenames).1.1, telescope, obsparam,
                filtername))
    | (w1, Return v) => (w1, Return v)
    | (w1, Raise e) => (w1, Raise e)
    end.
Proof.
  destruct (read_headers_result conf ext filenames (entered conf w filenames))
    as (w' & evs & Hread & Hframe & Hall & Hidx).
  exists w', evs. split; [done|]. split; [done|]. split; [done|].
  unfold identify.
  unfold bind at 1 2 3 4 5 6, getcwd, emit, increment_pp_process_idx.
  cbn [fst snd cwd use_diagnostics_summary pp_process_idx man_targetname
       trace].
  match goal with
  | |- _ ?W = _ =>
    replace W with (entered conf w filenames)
      by (unfold entered; f_equal; by rewrite <- !app_assoc)
  end.
  unfold bind at 1. rewrite Hread.
  change (cwd (entered conf w filenames)) with (cwd w).
  destruct (scan conf ext (cwd w) filenames) as [[kept ins] fl].
  unfold bind. cbn [fst snd].
  by destruct (validate_batch conf kept ins fl w')
    as [w1 [[[telescope obsparam] filtername] | v | e]].
Qed.

End Identification.

(** ** One call, from the batch it is given *)

Lemma header_events_silent evs :
  Forall header_event evs →
  stages_invoked evs = [] ∧ aborts evs = [] ∧ summaries evs = [] ∧
  file_tags evs = [] ∧ invocations evs = [] ∧ calls evs = [] ∧
  chdirs evs = [].
Proof.
  induction 1 as [|e evs He _ IH]; [done|].
  destruct e as [| |l m|m| | | | | | |]; try done;
    try (destruct l); try (destruct m); try done; exact IH.
Qed.

Lemma pre_stage_no_invocation evs :
  Forall pre_stage evs → invocations evs = [].
Proof.
  induction 1 as [|e evs He _ IH]; [done|].
  destruct e; try done; exact IH.
Qed.

Lemma file_tags_pairs (pairs : list (string * string)) :
  file_tags ((λ p, Logging ERROR (FileTag p.1 p.2)) <$> pairs) = pairs ∧
  stages_invoked ((λ p, Logging ERROR (FileTag p.1 p.2)) <$> pairs) = [].
Proof.
  induction pairs as [|[f t] pairs [IH1 IH2]]; [done|]. split.
  - change (file_tags ((λ p, Logging ERROR (FileTag p.1 p.2)) <$>
                       (f, t) :: pairs))
      with ((f, t) :: file_tags ((λ p, Logging ERROR (FileTag p.1 p.2)) <$>
                                 pairs)).
    by rewrite IH1.
  - exact IH2.
Qed.

Lemma steady_call (body : M unit) : steady body → steady (call body).
Proof.
  intros Hbody w. specialize (Hbody w). unfold call.
  by destruct (body w) as [w1 [[]| |]].
Qed.

Lemma registration_summary_outcome registration filenames :
  filenames ≠ [] →
  (registration_summary registration filenames = AllImagesRegistered ↔
   length (goodfits registration) = length filenames) ∧
  (registration_summary registration filenames = RegistrationFailed ↔
   goodfits registration = []).
Proof.
  intros Hsome. unfold registration_summary.
  destruct (goodfits registration) as [|g good] eqn:Hgood;
    destruct filenames as [|f filenames]; try done;
    repeat case_decide; simpl in *; try done; try lia.
Qed.

Section Runs.

Context (conf : pp_conf) (ext : external).

Lemma frame_entered filenames w :
  frame w (entered conf w filenames)
        [RunThePipeline (cwd w) filenames; SetupDiagnostics (cwd w);
         Logging INFO (NewPipelineProcess (setup_diagnostics conf (cwd w)));
         Logging INFO (CheckFrames (length filenames))].
Proof. by repeat split. Qed.

(** A call comes to the validation of what the header loop leaves and,
    for a batch that passes, to the stages on the files kept. *)
Lemma run_the_pipeline_result filenames w kept instruments filters :
  (read_headers conf ext filenames w).2 = Val (kept, instruments, filters) →
  ∃ w' evs,
    frame (entered conf w filenames) w' evs ∧ Forall header_event evs ∧
    pp_process_idx w' = S (pp_process_idx w) ∧
    identify conf ext filenames w =
    match validate_batch conf kept instruments filters w' with
    | (w1, Val (telescope, obsparam, filtername)) =>
      (w1, Val (kept, telescope, obsparam, filtername))
    | (w1, Return v) => (w1, Return v)
    | (w1, Raise e) => (w1, Raise e)
    end ∧
    run_the_pipeline conf ext filenames w =
    match validate_batch conf kept instruments filters w' with
    | (w1, Val (telescope, obsparam, filtername)) =>
      call (run_stages conf ext kept telescope obsparam filtername) w1
    | (w1, Return v) => (w1, Val (Some v))
    | (w1, Raise e) => (w1, Raise e)
    end.
Proof.
  rewrite read_headers_scan. intros [= Hscan].
  destruct (identify_result conf ext filenames w)
    as (w' & evs & Hf & Hall & Hidx & Hid).
  rewrite Hscan in Hid. cbn [fst snd] in Hid.
  exists w', evs. do 4 (split; [done|]).
  unfold run_the_pipeline, call at 1, bind. rewrite Hid.
  by destruct (validate_batch conf kept instruments filters w')
    as [w1 [[[t o] f]|v|e]].
Qed.

(** A batch that the validation rejects: the call ends with the
    exception of the validation, having recorded its entry, the header
    loop and what the validation records. *)
Lemma run_rejected filenames w kept instruments filters vevs e :
  (read_headers conf ext filenames w).2 = Val (kept, instruments, filters) →
  (∀ w', frame w' (validate_batch conf kept instruments filters w').1 vevs ∧
         (validate_batch conf kept instruments filters w').2 = Raise e) →
  ∃ w2 hevs,
    run_the_pipeline conf ext filenames w = (w2, Raise e) ∧
    frame w w2
          ([RunThePipeline (cwd w) filenames; SetupDiagnostics (cwd w);
            Logging INFO
              (NewPipelineProcess (setup_diagnostics conf (cwd w)));
            Logging INFO (CheckFrames (length filenames))] ++ hevs ++ vevs) ∧
    Forall header_event hevs.
Proof.
  intros Hread Hval.
  destruct (run_the_pipeline_result _ _ _ _ _ Hread)
    as (w' & hevs & Hf & Hall & _ & _ & Hrun).
  destruct (Hval w') as [Hfv Hr].
  destruct (validate_batch conf kept instruments filters w') as [w1 r].
  cbn [fst snd] in *. subst r.
  exists w1, hevs. split; [done|]. split; [|done].
  exact (frame_trans _ _ _ _ _ (frame_entered filenames w)
           (frame_trans _ _ _ _ _ Hf Hfv)).
Qed.

(** The projections of the record of a rejected call. *)
Ltac silence Hall :=
  destruct (header_events_silent _ Hall)
    as (Hs & Ha & Hm & Ht & Hi & Hc & Hd);
  unfold stages_invoked, aborts, summaries, file_tags, invocations in *;
  rewrite ?omap_app, ?Hs, ?Ha, ?Hm, ?Ht, ?Hi;
  try reflexivity.

(** X5. Without any instrument tag the call ends with the [KeyError] for
    the instrument, also when no filter tag was found either, and no
    stage is invoked. *)
Theorem batch_without_instrument_tag_is_rejected filenames w kept filters :
  (read_headers conf ext filenames w).2 = Val (kept, [], filters) →
  kept ≠ [] →
  ∃ w2 evs,
    run_the_pipeline conf ext filenames w =
      (w2, Raise (KeyError "cannot identify telescope/instrument")) ∧
    frame w w2 evs ∧ stages_invoked evs = [].
Proof.
  intros Hread Hkept.
  destruct (run_rejected _ _ _ _ _ []
              (KeyError "cannot identify telescope/instrument") Hread)
    as (w2 & hevs & Hrun & Hf & Hall).
  { intros w'. rewrite validate_no_instrument by done.
    split; [apply frame_refl|done]. }
  eexists w2, _. split; [exact Hrun|]. split; [exact Hf|]. silence Hall.
Qed.

(** X6. With instrument tags but without any filter tag the call ends
    with the [KeyError] for the filter, whatever the instrument tags are,
    and no stage is invoked. *)
Theorem batch_without_filter_tag_is_rejected filenames w kept instruments :
  (read_headers conf ext filenames w).2 = Val (kept, instruments, []) →
  kept ≠ [] → instruments ≠ [] →
  ∃ w2 evs,
    run_the_pipeline conf ext filenames w =
      (w2, Raise (KeyError "cannot identify filter")) ∧
    frame w w2 evs ∧ stages_invoked evs = [].
Proof.
  intros Hread Hkept Hins.
  destruct (run_rejected _ _ _ _ _ []
              (KeyError "cannot identify filter") Hread)
    as (w2 & hevs & Hrun & Hf & Hall).
  { intros w'. rewrite validate_no_filter by done.
    split; [apply frame_refl|done]. }
  eexists w2, _. split; [exact Hrun|]. split; [exact Hf|]. silence Hall.
Qed.

(** X7. With more than one instrument tag the call ends with the
    [NameError] of line 113, for any batch: no pair of a file and its tag
    is logged and no stage is invoked. *)
Theorem mixed_instruments_raise_name_error filenames w kept instruments
    filters :
  (read_headers conf ext filenames w).2 = Val (kept, instruments, filters) →
  kept ≠ [] → filters ≠ [] →
  (1 < length (remove_dups instruments))%nat →
  ∃ w2 evs,
    run_the_pipeline conf ext filenames w =
      (w2, Raise (NameError "instruemnts")) ∧
    frame w w2 evs ∧ file_tags evs = [] ∧ stages_invoked evs = [].
Proof.
  intros Hread Hkept Hfl Hmixed.
  assert (Hins : instruments ≠ []) by (intros ->; simpl in Hmixed; lia).
  destruct (run_rejected _ _ _ _ _ []
              (NameError "instruemnts") Hread)
    as (w2 & hevs & Hrun & Hf & Hall).
  { intros w'. rewrite validate_mixed_instruments by done.
    split; [apply frame_refl|done]. }
  eexists w2, _. split; [exact Hrun|]. split; [exact Hf|].
  split; silence Hall.
Qed.


(** X9. A filter tag that the instrument's [filter_translations] do not
    hold ends the call with the [KeyError] of that tag, after the frames
    of the telescope have been logged as identified; no stage is
    invoked. *)
Theorem unknown_filter_tag_is_a_key_error filenames w kept instruments
    filters tag telescope obsparam ftag :
  (read_headers conf ext filenames w).2 = Val (kept, instruments, filters) →
  kept ≠ [] → homogeneous instruments tag →
  instrument_identifiers conf !! tag = Some telescope →
  telescope_parameters conf !! telescope = Some obsparam →
  homogeneous filters ftag →
  filter_translations obsparam !! ftag = None →
  ∃ w2 evs,
    run_the_pipeline conf ext filenames w = (w2, Raise (KeyError ftag)) ∧
    frame w w2 evs ∧ stages_invoked evs = [] ∧
    last evs =
      Some (Logging INFO (TelescopeFramesIdentified (length kept) telescope)).
Proof.
  intros Hread Hkept Hhom Hid Hpar Hfhom Hft.
  destruct (run_rejected _ _ _ _ _
              [Logging INFO (TelescopeFramesIdentified (length kept) telescope)]
              (KeyError ftag) Hread) as (w2 & hevs & Hrun & Hf & Hall).
  { intros w'.
    rewrite (validate_one_filter _ _ _ _ tag telescope obsparam ftag)
      by done.
    rewrite Hft. split; [apply frame_extend|done]. }
  eexists w2, _. split; [exact Hrun|]. split; [exact Hf|].
  split; [silence Hall|].
  by rewrite app_assoc, last_snoc.
Qed.

(** X10. With one instrument and more than one filter tag the call logs
    the pair of every file kept and the filter tag at its index, in the
    order of the files, and exits; when there are fewer tags than files
    it ends with an [IndexError] after the pairs that exist. No stage is
    invoked. *)
Theorem mixed_filters_are_reported filenames w kept instruments filters tag
    telescope obsparam :
  (read_headers conf ext filenames w).2 = Val (kept, instruments, filters) →
  kept ≠ [] → homogeneous instruments tag →
  instrument_identifiers conf !! tag = Some telescope →
  telescope_parameters conf !! telescope = Some obsparam →
  (1 < length (remove_dups filters))%nat →
  ∃ w2 evs,
    run_the_pipeline conf ext filenames w =
      (w2, Raise (if decide (length kept ≤ length filters)%nat
                  then SystemExit None else IndexError)) ∧
    frame w w2 evs ∧
    file_tags evs = zip kept filters ∧
    stages_invoked evs = [].
Proof.
  intros Hread Hkept Hhom Hid Hpar Hmixed.
  assert (Hfl : filters ≠ []) by (intros ->; simpl in Hmixed; lia).
  destruct (run_rejected _ _ _ _ _
              ([Logging INFO
                  (TelescopeFramesIdentified (length kept) telescope);
                Printed (MultipleFilters (remove_dups filters));
                Logging ERROR (MultipleFilters (remove_dups filters))] ++
               ((λ p, Logging ERROR (FileTag p.1 p.2)) <$> zip kept filters))
              (if decide (length kept ≤ length filters)%nat
               then SystemExit None else IndexError) Hread)
    as (w2 & hevs & Hrun & Hf & Hall).
  { intros w'.
    destruct (validate_mixed_filters conf kept instruments filters tag
                telescope obsparam w') as [Hfv Hr]; try done.
    split; [done|]. rewrite Hr. by case_decide. }
  eexists w2, _. split; [exact Hrun|]. split; [exact Hf|].
  destruct (file_tags_pairs (zip kept filters)) as [Hpairs Hnone].
  split; silence Hall.
  - unfold file_tags in Hpairs. by rewrite Hpairs.
  - unfold stages_invoked in Hnone. by rewrite Hnone.
Qed.

(** What the validation accepts: a batch with a file, one instrument tag
    and one filter tag that the configuration resolves. *)
Lemma validate_batch_accepts kept instruments filters telescope obsparam
    filtername w :
  (validate_batch conf kept instruments filters w).2 =
    Val (telescope, obsparam, filtername) ↔
  kept ≠ [] ∧
  ∃ tag ftag,
    homogeneous instruments tag ∧ homogeneous filters ftag ∧
    instrument_identifiers conf !! tag = Some telescope ∧
    telescope_parameters conf !! telescope = Some obsparam ∧
    filter_translations obsparam !! ftag = Some filtername.
Proof.
  split.
  - intros Hval.
    destruct (decide (kept = [])) as [->|Hkept];
      [by rewrite validate_no_file in Hval|].
    destruct (decide (instruments = [])) as [->|Hins];
      [by rewrite validate_no_instrument in Hval|].
    destruct (decide (filters = [])) as [->|Hfl];
      [by rewrite validate_no_filter in Hval|].
    destruct (decide (1 < length (remove_dups instruments))%nat)
      as [Hmixed|Hone];
      [by rewrite validate_mixed_instruments in Hval|].
    destruct (remove_dups_homogeneous _ Hins Hone) as (tag & ? & _ & Hhom).
    destruct (instrument_identifiers conf !! tag) as [tel|] eqn:Hid;
      [|by rewrite (validate_unknown_instrument _ _ _ _ tag) in Hval].
    destruct (telescope_parameters conf !! tel) as [par|] eqn:Hpar;
      [|by rewrite (validate_unknown_telescope _ _ _ _ tag tel) in Hval].
    destruct (decide (1 < length (remove_dups filters))%nat)
      as [Hfmixed|Hfone].
    { destruct (validate_mixed_filters conf kept instruments filters tag
                  tel par w) as [_ Hr]; try done.
      rewrite Hr in Hval. by case_decide. }
    destruct (remove_dups_homogeneous _ Hfl Hfone) as (ftag & ? & _ & Hfhom).
    rewrite (validate_one_filter _ _ _ _ tag tel par ftag) in Hval by done.
    destruct (filter_translations par !! ftag) as [name|] eqn:Hft; [|done].
    injection Hval as <- <- <-.
    split; [done|]. by exists tag, ftag.
  - intros (Hkept & tag & ftag & Hhom & Hfhom & Hid & Hpar & Hft).
    rewrite (validate_one_filter _ _ _ _ tag telescope obsparam ftag) by done.
    by rewrite Hft.
Qed.

(** X11. The identification passes a batch on to the stages exactly when
    the header loop leaves at least one file, all instrument tags are one
    tag that resolves to a telescope with parameters, and all filter tags
    are one tag that the telescope's filter translations hold; the frame
    set is then the files kept, and the telescope, its parameters and the
    filter name are the ones looked up. *)
Theorem identification_accepts_exactly filenames w kept instruments filters
    fs telescope obsparam filtername :
  (read_headers conf ext filenames w).2 = Val (kept, instruments, filters) →
  (identify conf ext filenames w).2 =
    Val (fs, telescope, obsparam, filtername) ↔
  fs = kept ∧ kept ≠ [] ∧
  ∃ tag ftag,
    homogeneous instruments tag ∧ homogeneous filters ftag ∧
    instrument_identifiers conf !! tag = Some telescope ∧
    telescope_parameters conf !! telescope = Some obsparam ∧
    filter_translations obsparam !! ftag = Some filtername.
Proof.
  intros Hread.
  destruct (run_the_pipeline_result _ _ _ _ _ Hread)
    as (w' & hevs & _ & _ & _ & Hid & _).
  rewrite Hid.
  pose proof (validate_batch_accepts kept instruments filters telescope
                obsparam filtername w') as Haccepts.
  destruct (validate_batch conf kept instruments filters w')
    as [w1 [[[t o] f]|v|e]]; cbn [fst snd] in *.
  - split.
    + intros [= <- <- <- <-]. split; [done|]. by apply Haccepts.
    + intros [-> Hrest]. apply Haccepts in Hrest. by injection Hrest as -> -> ->.
  - split; [done|]. intros [_ Hrest]. by apply Haccepts in Hrest.
  - split; [done|]. intros [_ Hrest]. by apply Haccepts in Hrest.
Qed.

(** A batch that the identification passes on holds a file. *)
Lemma identified_batch_holds_a_file filenames w w1 kept telescope obsparam
    filtername :
  identify conf ext filenames w =
    (w1, Val (kept, telescope, obsparam, filtername)) →
  kept ≠ [].
Proof.
  intros Hid.
  destruct (scan conf ext (cwd w) filenames) as [[kept' ins] fl] eqn:Hscan.
  assert (Hread : (read_headers conf ext filenames w).2 = Val (kept', ins, fl))
    by by rewrite read_headers_scan, Hscan.
  destruct (run_the_pipeline_result _ _ _ _ _ Hread)
    as (w' & hevs & _ & _ & _ & Hid' & _).
  rewrite Hid in Hid'.
  pose proof (validate_batch_accepts kept' ins fl telescope obsparam
                filtername w') as Haccepts.
  destruct (validate_batch conf kept' ins fl w')
    as [w2 [[[t o] f]|v|e]]; [|done..].
  injection Hid' as -> -> -> -> ->. by apply Haccepts.
Qed.

End Runs.

(** ** The stages of a batch that passed *)

Section Outcomes.

Context (conf : pp_conf) (ext : external).

Lemma steady_run_stages filenames telescope obsparam filtername :
  steady (run_stages conf ext filenames telescope obsparam filtername).
Proof. unfold run_stages. repeat steady_step. Qed.

(** The stages end with the exit of the failed calibration or with
    [return 0], if not at their end. *)
Lemma stops_run_stages filenames telescope obsparam filtername :
  stops (λ e, e = SystemExit (Some 1%Z)) (λ v, v = 0%Z)
        (run_stages conf ext filenames telescope obsparam filtername).
Proof.
  unfold run_stages.
  repeat (stops_step || (by apply stops_raise) || (by apply stops_return_)).
Qed.

Lemma stops_validate_batch Q R filenames instruments filters :
  Q IOError → (∀ what, Q (KeyError what)) → (∀ name, Q (NameError name)) →
  Q IndexError → Q (SystemExit None) →
  stops Q R (validate_batch conf filenames instruments filters).
Proof.
  intros HIO Hkey Hname Hindex Hexit.
  assert (Hreport : ∀ fs tags, stops Q R (report_tags fs tags)).
  { intros. unfold report_tags. apply stops_for_each. intros i.
    repeat (stops_step || (by apply stops_raise)). }
  unfold validate_batch, first, subscript.
  repeat (stops_step || apply Hreport || (by apply stops_raise)).
Qed.

(** Lines 61-136 never leave the function with [return], and exit with
    no other status than that of a bare [sys.exit()]. *)
Lemma stops_identify filenames :
  stops (λ e, ∀ code, e = SystemExit code → code = None) (λ _, False)
        (identify conf ext filenames).
Proof.
  unfold identify, read_headers.
  repeat (stops_step || apply stops_header_loop ||
          (apply stops_validate_batch; by intros; simplify_eq)).
Qed.

(** Project a record made of the inspection and one of the four ways
    through the stages. *)
Ltac read_off Hall :=
  destruct (pre_stage_silent _ Hall) as (Hs & Ha & Hm & Hr);
  pose proof (pre_stage_no_invocation _ Hall) as Hi;
  unfold stages_invoked, aborts, summaries, reports, invocations in *;
  rewrite ?omap_app; cbn [omap list_omap app];
  rewrite ?Hs, ?Ha, ?Hm, ?Hr, ?Hi;
  try match goal with
      | |- context [summary (use_diagnostics_summary ?w) _] =>
        destruct (use_diagnostics_summary w)
      end;
  cbn [summary omap list_omap app];
  try reflexivity.

(** X12. When the registration keeps a frame and the calibration gives a
    result, the call runs the five stages and comes to its end without a
    return value: the preparation and the registration get the files
    that the header loop kept, the photometry and the calibration get
    the frames that registered, the distillation gets the catalogues of
    the calibration; no abort is recorded and the garbage collection is
    the last thing done. *)
Theorem stages_get_their_frame_sets filenames w w1 kept telescope obsparam
    manfilter calibration :
  identify conf ext filenames w =
    (w1, Val (kept, telescope, obsparam, Some manfilter)) →
  goodfits (register_stage ext (cwd w) kept telescope obsparam) ≠ [] →
  calibrate_stage conf ext (cwd w)
    (goodfits (register_stage ext (cwd w) kept telescope obsparam))
    manfilter obsparam = Some calibration →
  ∃ w2 evs,
    run_the_pipeline conf ext filenames w = (w2, Val None) ∧
    frame w w2 evs ∧
    invocations evs =
      [(Prepare, kept); (Register, kept);
       (Photometry,
        goodfits (register_stage ext (cwd w) kept telescope obsparam));
       (Calibrate,
        goodfits (register_stage ext (cwd w) kept telescope obsparam));
       (Distill, catalogs calibration)] ∧
    aborts evs = [] ∧
    last evs = Some GcCollect.
Proof.
  intros Hid Hgood Hcal.
  destruct (identify_trace conf ext filenames w) as (evs1 & Hf1 & Hall1).
  rewrite Hid in Hf1. simpl in Hf1.
  assert (Hcwd : cwd w1 = cwd w) by apply Hf1.
  rewrite (run_the_pipeline_identified _ _ _ _ _ _ _ _ _ Hid).
  unfold call.
  rewrite (run_stages_done _ _ _ _ _ _ calibration) by by rewrite Hcwd.
  rewrite !Hcwd.
  eexists _, _. split; [reflexivity|].
  split; [exact (frame_trans _ _ _ _ _ Hf1 (frame_extend w1 _))|].
  split; [|split]; [read_off Hall1..|].
  destruct (use_diagnostics_summary w1); cbn [summary app];
    by rewrite app_comm_cons, last_app_cons.
Qed.

(** X13. When the registration keeps a frame and the calibration gives
    no result, the call exits with status 1: the abort for
    [pp_calibrate] is the last thing recorded, the calibration got the
    frames that registered, and the distillation is not invoked. *)
Theorem failed_calibration_exits_with_status_one filenames w w1 kept
    telescope obsparam manfilter :
  identify conf ext filenames w =
    (w1, Val (kept, telescope, obsparam, Some manfilter)) →
  goodfits (register_stage ext (cwd w) kept telescope obsparam) ≠ [] →
  calibrate_stage conf ext (cwd w)
    (goodfits (register_stage ext (cwd w) kept telescope obsparam))
    manfilter obsparam = None →
  ∃ w2 evs,
    run_the_pipeline conf ext filenames w =
      (w2, Raise (SystemExit (Some 1%Z))) ∧
    frame w w2 evs ∧
    invocations evs =
      [(Prepare, kept); (Register, kept);
       (Photometry,
        goodfits (register_stage ext (cwd w) kept telescope obsparam));
       (Calibrate,
        goodfits (register_stage ext (cwd w) kept telescope obsparam))] ∧
    aborts evs = ["pp_calibrate"] ∧
    last evs = Some (DiagAbort "pp_calibrate").
Proof.
  intros Hid Hgood Hcal.
  destruct (identify_trace conf ext filenames w) as (evs1 & Hf1 & Hall1).
  rewrite Hid in Hf1. simpl in Hf1.
  assert (Hcwd : cwd w1 = cwd w) by apply Hf1.
  rewrite (run_the_pipeline_identified _ _ _ _ _ _ _ _ _ Hid).
  unfold call.
  rewrite run_stages_no_calibration by by rewrite Hcwd.
  rewrite !Hcwd.
  eexists _, _. split; [reflexivity|].
  split; [exact (frame_trans _ _ _ _ _ Hf1 (frame_extend w1 _))|].
  split; [|split]; [read_off Hall1..|].
  destruct (use_diagnostics_summary w1); cbn [summary app];
    by rewrite app_comm_cons, last_app_cons.
Qed.

(** X14. A call ends in one of four ways. It comes to its end after the
    five stages, or returns 0 after the registration (with at most the
    abort of the registration recorded), or exits with status 1 after
    the calibration with the abort of the calibration recorded, or ends
    with an exception of the inspection: then no stage was invoked, no
    abort is recorded and an exit carries no status. *)
Theorem run_outcomes filenames w :
  ∃ w2 r evs,
    run_the_pipeline conf ext filenames w = (w2, r) ∧ frame w w2 evs ∧
    ((r = Val None ∧
      stages_invoked evs =
        [Prepare; Register; Photometry; Calibrate; Distill] ∧
      aborts evs = []) ∨
     (r = Val (Some 0%Z) ∧ stages_invoked evs = [Prepare; Register] ∧
      (aborts evs = [] ∨ aborts evs = ["pp_registration"])) ∨
     (r = Raise (SystemExit (Some 1%Z)) ∧
      stages_invoked evs = [Prepare; Register; Photometry; Calibrate] ∧
      aborts evs = ["pp_calibrate"]) ∨
     (∃ e, r = Raise e ∧ (∀ code, e = SystemExit code → code = None) ∧
           stages_invoked evs = [] ∧ aborts evs = [])).
Proof.
  destruct (identify_trace conf ext filenames w) as (evs1 & Hf1 & Hall1).
  pose proof (stops_identify filenames w) as Hstop.
  destruct (identify conf ext filenames w)
    as [w1 [[[[fs telescope] obsparam] filtername] | v | e]] eqn:Hid;
    simpl in Hf1, Hstop; [|done|].
  - rewrite (run_the_pipeline_identified _ _ _ _ _ _ _ _ _ Hid).
    unfold call.
    destruct filtername as [manfilter|].
    + destruct (goodfits (register_stage ext (cwd w1) fs telescope obsparam))
        eqn:Hgood.
      * rewrite run_stages_no_registration by done.
        eexists _, _, _. split; [reflexivity|].
        split; [exact (frame_trans _ _ _ _ _ Hf1 (frame_extend w1 _))|].
        right; left. split; [done|]. split; [read_off Hall1|].
        right. read_off Hall1.
      * destruct (calibrate_stage conf ext (cwd w1)
                    (goodfits (register_stage ext (cwd w1) fs telescope
                                              obsparam))
                    manfilter obsparam) as [calibration|] eqn:Hcal.
        -- rewrite (run_stages_done _ _ _ _ _ _ calibration);
             [|by rewrite Hgood|done].
           eexists _, _, _. split; [reflexivity|].
           split; [exact (frame_trans _ _ _ _ _ Hf1 (frame_extend w1 _))|].
           left. split; [done|]. split; read_off Hall1.
        -- rewrite run_stages_no_calibration; [|by rewrite Hgood|done].
           eexists _, _, _. split; [reflexivity|].
           split; [exact (frame_trans _ _ _ _ _ Hf1 (frame_extend w1 _))|].
           do 2 right; left. split; [done|]. split; read_off Hall1.
    + rewrite run_stages_no_filter.
      eexists _, _, _. split; [reflexivity|].
      split; [exact (frame_trans _ _ _ _ _ Hf1 (frame_extend w1 _))|].
      right; left. split; [done|]. split; [read_off Hall1|].
      left. read_off Hall1.
  - rewrite (run_the_pipeline_rejected _ _ _ _ _ _ Hid).
    eexists _, _, _. split; [reflexivity|]. split; [exact Hf1|].
    do 3 right. exists e. split; [done|]. split; [done|].
    split; read_off Hall1.
Qed.

(** Line 62, on every way through the call. *)
Lemma run_the_pipeline_counts filenames w :
  pp_process_idx (run_the_pipeline conf ext filenames w).1 =
  S (pp_process_idx w).
Proof.
  destruct (scan conf ext (cwd w) filenames) as [[kept ins] fl] eqn:Hscan.
  assert (Hread : (read_headers conf ext filenames w).2 = Val (kept, ins, fl))
    by by rewrite read_headers_scan, Hscan.
  destruct (run_the_pipeline_result _ _ _ _ _ _ _ Hread)
    as (w' & hevs & _ & _ & Hidx & _ & Hrun).
  rewrite Hrun. pose proof (steady_validate_batch conf kept ins fl w') as Hv.
  destruct (validate_batch conf kept ins fl w')
    as [w1 [[[telescope obsparam] filtername]|v|e]]; cbn [fst snd] in *;
    [|congruence..].
  rewrite (steady_call _ (steady_run_stages kept telescope obsparam
                            filtername)).
  congruence.
Qed.

(** X15. A call changes the globals in one way only: whatever its
    outcome, it adds one to [_pp_conf.pp_process_idx], and it leaves the
    working directory, the summary switch and the target name as it
    found them. *)
Theorem each_call_counts_once filenames w :
  pp_process_idx (run_the_pipeline conf ext filenames w).1 =
    S (pp_process_idx w) ∧
  cwd (run_the_pipeline conf ext filenames w).1 = cwd w ∧
  use_diagnostics_summary (run_the_pipeline conf ext filenames w).1 =
    use_diagnostics_summary w ∧
  man_targetname (run_the_pipeline conf ext filenames w).1 =
    man_targetname w.
Proof.
  split; [apply run_the_pipeline_counts|].
  destruct (run_the_pipeline_trace conf ext filenames w)
    as (evs & (_ & Hcwd & Hswitch & Htarget) & _).
  by repeat split.
Qed.

(** With the summary switched on, the first string of the stages is the
    one for the registration. *)
Lemma run_stages_first_summary filenames telescope obsparam filtername w :
  use_diagnostics_summary w = true →
  ∃ evs rest,
    frame w (run_stages conf ext filenames telescope obsparam filtername w).1
          evs ∧
    summaries evs =
      registration_summary
        (register_stage ext (cwd w) filenames telescope obsparam) filenames
      :: rest.
Proof.
  intros Hon. destruct filtername as [manfilter|].
  - destruct (goodfits (register_stage ext (cwd w) filenames telescope
                                       obsparam)) eqn:Hgood.
    + rewrite run_stages_no_registration by done. rewrite Hon.
      eexists _, _. split; [apply frame_extend|reflexivity].
    + destruct (calibrate_stage conf ext (cwd w)
                  (goodfits (register_stage ext (cwd w) filenames telescope
                                            obsparam))
                  manfilter obsparam) as [calibration|] eqn:Hcal.
      * rewrite (run_stages_done _ _ _ _ _ _ calibration);
          [|by rewrite Hgood|done].
        rewrite Hon. eexists _, _. split; [apply frame_extend|reflexivity].
      * rewrite run_stages_no_calibration; [|by rewrite Hgood|done].
        rewrite Hon. eexists _, _. split; [apply frame_extend|reflexivity].
  - rewrite run_stages_no_filter. rewrite Hon.
    eexists _, _. split; [apply frame_extend|reflexivity].
Qed.

(** X16. In a call with the summary switched on whose batch passed the
    validation, the first string handed to the reporter is the one for
    the registration, and it tells the outcome: it is the string for a
    failed registration exactly when no frame registered, and the string
    for a full success exactly when as many frames registered as the
    batch holds. The batch of a call that reaches the registration is
    never empty, so the two cases do not meet. *)
Theorem registration_string_tells_the_outcome filenames w w1 kept telescope
    obsparam filtername :
  identify conf ext filenames w =
    (w1, Val (kept, telescope, obsparam, filtername)) →
  use_diagnostics_summary w = true →
  ∃ evs m rest,
    frame w (run_the_pipeline conf ext filenames w).1 evs ∧
    summaries evs = m :: rest ∧
    (m = AllImagesRegistered ↔
     length (goodfits (register_stage ext (cwd w) kept telescope obsparam)) =
     length kept) ∧
    (m = RegistrationFailed ↔
     goodfits (register_stage ext (cwd w) kept telescope obsparam) = []).
Proof.
  intros Hid Hon.
  pose proof (identified_batch_holds_a_file _ _ _ _ _ _ _ _ _ Hid) as Hkept.
  destruct (identify_trace conf ext filenames w) as (evs1 & Hf1 & Hall1).
  rewrite Hid in Hf1. simpl in Hf1.
  assert (Hcwd : cwd w1 = cwd w) by apply Hf1.
  assert (Hflag : use_diagnostics_summary w1 = true).
  { destruct Hf1 as (_ & _ & -> & _). exact Hon. }
  destruct (run_stages_first_summary kept telescope obsparam filtername w1
              Hflag) as (evs2 & rest & Hf2 & Hsum).
  rewrite Hcwd in Hsum.
  exists ((RunThePipeline (cwd w) filenames :: evs1) ++ evs2),
    (registration_summary
       (register_stage ext (cwd w) kept telescope obsparam) kept), rest.
  split; [|split].
  - rewrite (run_the_pipeline_identified _ _ _ _ _ _ _ _ _ Hid).
    assert (Hcall : (call (run_stages conf ext kept telescope obsparam
                                      filtername) w1).1 =
                    (run_stages conf ext kept telescope obsparam filtername
                                w1).1).
    { unfold call.
      by destruct (run_stages conf ext kept telescope obsparam filtername w1)
        as [w2 [[]| |]]. }
    rewrite Hcall. exact (frame_trans _ _ _ _ _ Hf1 Hf2).
  - destruct (pre_stage_silent _ Hall1) as (_ & _ & Hm & _).
    unfold summaries in *. rewrite omap_app. cbn [omap list_omap].
    rewrite Hm. exact Hsum.
  - by apply registration_summary_outcome.
Qed.

(** X17. The call ends with the [IOError] of line 99 exactly when the
    batch is empty or is a single file that does not open: in every
    other batch the header loop leaves a file, be it one that was never
    opened. *)
Theorem empty_batch_error_iff_no_file_left filenames w :
  (run_the_pipeline conf ext filenames w).2 = Raise IOError ↔
  filenames = [] ∨ ∃ f, filenames = [f] ∧ fits_open ext (cwd w) f = None.
Proof.
  rewrite <- (scan_nothing_kept conf ext).
  destruct (scan conf ext (cwd w) filenames) as [[kept ins] fl] eqn:Hscan.
  assert (Hread : (read_headers conf ext filenames w).2 = Val (kept, ins, fl))
    by by rewrite read_headers_scan, Hscan.
  destruct (run_the_pipeline_result _ _ _ _ _ _ _ Hread)
    as (w' & hevs & _ & _ & _ & _ & Hrun).
  rewrite Hrun. cbn [fst snd]. split.
  - destruct (decide (kept = [])) as [|Hkept]; [done|].
    pose proof (validate_batch_no_IOError conf kept ins fl Hkept w') as Hv.
    destruct (validate_batch conf kept ins fl w')
      as [w1 [[[telescope obsparam] filtername]|v|e]]; cbn [fst snd] in *.
    + pose proof (stops_run_stages kept telescope obsparam filtername w1)
        as Hs.
      unfold call.
      destruct (run_stages conf ext kept telescope obsparam filtername w1)
        as [w2 [[]|v|e]]; cbn [fst snd] in *; [done..|].
      by intros [= ->].
    + done.
    + by intros [= ->].
  - intros ->. by rewrite validate_no_file.
Qed.

End Outcomes.

(** ** The string for the distillation *)

Lemma filter_first {A} (p : A → bool) (l : list A) x rest :
  List.filter p l = x :: rest →
  ∃ before after,
    l = before ++ x :: after ∧ Forall (λ y, p y = false) before ∧
    p x = true.
Proof.
  induction l as [|y l IH]; [done|]. simpl.
  destruct (p y) eqn:Hy.
  - intros [= -> _]. by exists [], l.
  - intros Hrest. destruct (IH Hrest) as (before & after & -> & Hall & Hx).
    exists (y :: before), after. by repeat split; [constructor|].
Qed.

(** X18. The string for the distillation gives a brightness only for the
    first target name other than ['control_star']: the names before it
    are all ['control_star'], and the magnitudes are the eighth entry of
    each of its frames, frame by frame. *)
Theorem distill_string_is_for_the_first_target distillate mags :
  distill_summary distillate = AverageTargetBrightness mags →
  ∃ before target after,
    targetnames distillate = before ++ target :: after ∧
    Forall (λ t, t = "control_star") before ∧
    target ≠ "control_star" ∧
    Forall2 (λ frame mag, frame !! 7%nat = Some mag)
            (target_frames distillate target) mags.
Proof.
  unfold distill_summary.
  destruct (List.filter _ (targetnames distillate)) as [|target rest] eqn:Hf;
    [done|].
  destruct (mapM _ (target_frames distillate target)) as [ms|] eqn:Hm;
    [|done].
  intros [= <-].
  apply filter_first in Hf as (before & after & Hnames & Hall & Ht).
  exists before, target, after. split; [done|]. split; [|split].
  - eapply Forall_impl; [exact Hall|]. intros t Hneg. simpl in Hneg.
    apply negb_false_iff in Hneg. by apply String.eqb_eq.
  - apply negb_true_iff in Ht. by apply String.eqb_neq.
  - by apply mapM_Some.
Qed.

(** ** The [__main__] block, beyond the walk that comes back *)

Lemma own_event_silent evs :
  Forall own_event evs →
  calls evs = [] ∧ chdirs evs = [] ∧ CreateSummary ∉ evs.
Proof.
  induction 1 as [|e evs He _ (IH1 & IH2 & IH3)];
    [by repeat split; try apply not_elem_of_nil|].
  destruct e; try done; (split; [exact IH1|]); (split; [exact IH2|]);
    by apply not_elem_of_cons.
Qed.

Lemma for_each_app {A} (l1 l2 : list A) (body : A → M unit) w :
  for_each (l1 ++ l2) body w =
  bind (for_each l1 body) (λ _, for_each l2 body) w.
Proof.
  revert w. induction l1 as [|x l1 IH]; intros w; [reflexivity|].
  cbn [app for_each]. rewrite bind_assoc. unfold bind at 1 2.
  destruct (body x w) as [w1 [[]| |]]; [apply IH|done..].
Qed.

Section Main.

Context (conf : pp_conf) (ext : external).

Lemma emits_own_validate_batch filenames instruments filters :
  emits own_event (validate_batch conf filenames instruments filters).
Proof.
  unfold validate_batch.
  repeat first
    [ apply emits_report_tags; intros; exact I
    | apply emits_subscript
    | apply emits_first
    | emits_step ].
Qed.

Lemma emits_own_run_stages filenames telescope obsparam filtername :
  emits own_event
        (run_stages conf ext filenames telescope obsparam filtername).
Proof. unfold run_stages. repeat emits_step. Qed.

(** One call records its marker and then events of its own only. *)
Lemma run_the_pipeline_own filenames w :
  ∃ evs, frame w (run_the_pipeline conf ext filenames w).1
               (RunThePipeline (cwd w) filenames :: evs) ∧
         Forall own_event evs.
Proof.
  assert (Hid : ∃ evs, frame w (identify conf ext filenames w).1
                             (RunThePipeline (cwd w) filenames :: evs) ∧
                       Forall own_event evs).
  { unfold identify. apply marker_first. intros dir. unfold read_headers.
    repeat first
      [ apply emits_header_loop; intros; exact I
      | apply emits_own_validate_batch
      | emits_step ]. }
  destruct Hid as (evs1 & Hf1 & Hall1).
  unfold run_the_pipeline, call, bind.
  destruct (identify conf ext filenames w)
    as [w1 [[[[fs telescope] obsparam] filtername] | v | e]];
    simpl in *; [|by exists evs1..].
  destruct (emits_own_run_stages fs telescope obsparam filtername w1)
    as (evs2 & Hf2 & Hall2).
  exists (evs1 ++ evs2). split; [|by apply Forall_app].
  destruct (run_stages conf ext fs telescope obsparam filtername w1)
    as [w2 [[] | v | e]]; simpl in *;
    exact (frame_trans _ _ _ (_ :: evs1) evs2 Hf1 Hf2).
Qed.

(** X19. Without a prefix, or with anything else than the one word
    ['all'] on the command line, the [__main__] block makes one call of
    [run_the_pipeline], in the directory it was started in and with the
    names as they were given: it changes no directory, creates no summary
    and leaves the summary switch as it was. In particular ['all']
    without a prefix is taken for the name of a file. *)
Theorem single_dataset_mode_calls_once prefix target images w :
  prefix = None ∨ images ≠ ["all"] →
  ∃ w2 r evs,
    main conf ext prefix target images w = Some (w2, r) ∧
    trace w2 = trace w ++ evs ∧
    cwd w2 = cwd w ∧
    use_diagnostics_summary w2 = use_diagnostics_summary w ∧
    calls evs = [(cwd w, images)] ∧
    chdirs evs = [] ∧
    CreateSummary ∉ evs.
Proof.
  intros Hsingle.
  assert (Hmain : main conf ext prefix target images w =
                  Some ((set_man_targetname target >>
                         run_the_pipeline conf ext images >> ret tt) w)).
  { unfold main. destruct images as [|image [|]]; try done.
    destruct prefix as [prefix|]; [|done].
    destruct (String.eqb image "all") eqn:Heq; [|done].
    apply String.eqb_eq in Heq as ->. by destruct Hsingle. }
  rewrite Hmain. unfold bind at 1, set_man_targetname.
  match goal with
  | |- context [bind (run_the_pipeline conf ext images) _ ?W] =>
    set (w0 := W)
  end.
  destruct (run_the_pipeline_own images w0) as (evs & Hf & Hall).
  destruct (own_event_silent _ Hall) as (Hcalls & Hch & Hcreate).
  unfold bind, ret.
  destruct (run_the_pipeline conf ext images w0) as [w1 [v|v|e]];
    destruct Hf as (Ht & Hc & Hs & _); cbn [fst snd] in *;
    eexists _, _, (RunThePipeline (cwd w) images :: evs);
    (split; [reflexivity|]); (split; [exact Ht|]);
    (split; [exact Hc|]); (split; [exact Hs|]);
    (split; [unfold calls in *; cbn [omap list_omap]; by rewrite Hcalls|]);
    (split; [exact Hch|]); by apply not_elem_of_cons.
Qed.

Lemma dispatch_app regex master before after w :
  dispatch conf ext regex master (before ++ after) w =
  bind (dispatch conf ext regex master before)
       (λ _, dispatch conf ext regex master after) w.
Proof. unfold dispatch. apply for_each_app. Qed.

(** X20. In the walk, the first call that raises ends the walk for good:
    when every call for the directories before it comes back and the
    call for a directory with matching files raises, the walk ends with
    that exception, the directories after it are not visited, and the
    process is left in the directory of the failed call instead of the
    master directory. *)
Theorem first_failing_call_ends_the_walk regex master before root dirs files
    after w :
  cwd w = master →
  (∀ root' dirs' files' w',
     (root', dirs', files') ∈ before → dataset_frames regex files' ≠ [] →
     cwd w' = root' →
     ∃ w'' v, run_the_pipeline conf ext (dataset_frames regex files') w' =
              (w'', Val v)) →
  dataset_frames regex files ≠ [] →
  (∀ w', cwd w' = root →
         ∃ w'' e, run_the_pipeline conf ext (dataset_frames regex files) w' =
                  (w'', Raise e)) →
  ∃ w2 e evs,
    dispatch conf ext regex master (before ++ (root, dirs, files) :: after) w
      = (w2, Raise e) ∧
    trace w2 = trace w ++ evs ∧
    cwd w2 = root ∧
    calls evs =
      datasets regex before ++ [(root, dataset_frames regex files)] ∧
    last (chdirs evs) = Some root.
Proof.
  intros Hcwd Hbefore Hsome Hraise.
  destruct (dispatch_all_return conf ext regex master before Hbefore w Hcwd)
    as (w1 & evs1 & Hd & Ht & Hc & Hcalls & Hch).
  destruct (Hraise (enter root w1) eq_refl) as (w2 & e & Hrun).
  destruct (run_the_pipeline_trace conf ext (dataset_frames regex files)
              (enter root w1)) as (evs2 & Hf2 & Hall2).
  rewrite Hrun in Hf2. simpl in Hf2. destruct Hf2 as (Ht2 & Hc2 & _).
  destruct (inner_silent _ Hall2) as (Hcalls2 & Hch2).
  exists w2, e,
    (evs1 ++ [Printed (RunPipelineIn root); Chdir root] ++
     RunThePipeline root (dataset_frames regex files) :: evs2).
  split; [|split; [|split; [|split]]].
  - rewrite dispatch_app. unfold bind. rewrite Hd.
    by apply dispatch_run_raises.
  - rewrite Ht2. simpl. rewrite Ht. by rewrite <- !app_assoc.
  - exact Hc2.
  - unfold calls in *. rewrite omap_app. cbn [omap list_omap app].
    by rewrite Hcalls, Hcalls2.
  - unfold chdirs in *. rewrite omap_app. cbn [omap list_omap app].
    rewrite Hch2. apply last_snoc.
Qed.

(** The walk leaves the summary switch and the target name as they are,
    and [pp_process_idx] counts its calls, however it ends. *)
Lemma dispatch_globals regex master walk :
  ∀ w, ∃ evs,
    trace (dispatch conf ext regex master walk w).1 = trace w ++ evs ∧
    use_diagnostics_summary (dispatch conf ext regex master walk w).1 =
      use_diagnostics_summary w ∧
    man_targetname (dispatch conf ext regex master walk w).1 =
      man_targetname w ∧
    pp_process_idx (dispatch conf ext regex master walk w).1 =
      (pp_process_idx w + length (calls evs))%nat.
Proof.
  induction walk as [|[[root dirs] files] walk IH]; intros w.
  - exists []. cbn. rewrite app_nil_r. repeat split. lia.
  - destruct (dataset_frames regex files) as [|f fs] eqn:Hframes.
    + rewrite dispatch_nothing_to_do by done.
      destruct (IH (extend w [Printed (NothingToDoIn root)]))
        as (evs & Ht & Hs & Hm & Hi).
      exists (Printed (NothingToDoIn root) :: evs).
      split; [by rewrite Ht; simpl; rewrite <- app_assoc|].
      split; [exact Hs|]. split; [exact Hm|]. exact Hi.
    + assert (Hsome : dataset_frames regex files ≠ []) by by rewrite Hframes.
      destruct (run_the_pipeline_trace conf ext (dataset_frames regex files)
                  (enter root w)) as (evs1 & Hf1 & Hall1).
      pose proof (run_the_pipeline_counts conf ext
                    (dataset_frames regex files) (enter root w)) as Hi1.
      destruct (inner_silent _ Hall1) as (Hcalls1 & _).
      destruct (run_the_pipeline conf ext (dataset_frames regex files)
                  (enter root w)) as [w1 r] eqn:Hrun.
      cbn [fst snd] in Hf1, Hi1. destruct Hf1 as (Ht1 & _ & Hs1 & Hm1).
      destruct r as [v|v|e].
      * rewrite (dispatch_run_returns conf ext regex master root dirs files
                   walk w w1 v Hsome Hrun).
        destruct (IH (leave master w1)) as (evs & Ht & Hs & Hm & Hi).
        exists ([Printed (RunPipelineIn root); Chdir root] ++
                RunThePipeline root (dataset_frames regex files) :: evs1 ++
                Chdir master :: evs).
        split; [|split; [|split]].
        -- rewrite Ht. simpl. rewrite Ht1. simpl.
           by rewrite <- !app_assoc.
        -- rewrite Hs. exact Hs1.
        -- rewrite Hm. exact Hm1.
        -- rewrite Hi. cbn [pp_process_idx leave]. rewrite Hi1.
           unfold calls in *. cbn [omap list_omap app].
           rewrite omap_app, Hcalls1. cbn [omap list_omap app length enter
             pp_process_idx]. lia.
      * exfalso. unfold run_the_pipeline in Hrun.
        eapply (call_result _ _ v). by rewrite Hrun.
      * rewrite (dispatch_run_raises conf ext regex master root dirs files
                   walk w w1 e Hsome Hrun).
        exists ([Printed (RunPipelineIn root); Chdir root] ++
                RunThePipeline root (dataset_frames regex files) :: evs1).
        split; [|split; [|split]].
        -- cbn [fst]. rewrite Ht1. simpl. by rewrite <- !app_assoc.
        -- exact Hs1.
        -- exact Hm1.
        -- cbn [fst]. rewrite Hi1.
           unfold calls in *. cbn [omap list_omap app].
           rewrite Hcalls1. cbn [length enter pp_process_idx]. lia.
Qed.

(** X22. In the batch mode, however the walk ends: the summary is
    created before anything else is done, the summary switch is on in
    every call and afterwards, the target name of the command line is the
    one that the calls read, and [_pp_conf.pp_process_idx] has gone up by
    the number of calls of [run_the_pipeline], the failed one
    included. *)
Theorem batch_mode_counts_its_calls prefix target regex w :
  re_compile (dataset_pattern prefix) = Some regex →
  ∃ w2 r evs,
    main conf ext (Some prefix) target ["all"] w = Some (w2, r) ∧
    trace w2 = trace w ++ CreateSummary :: evs ∧
    use_diagnostics_summary w2 = true ∧
    man_targetname w2 = target ∧
    pp_process_idx w2 = (pp_process_idx w + length (calls evs))%nat.
Proof.
  intros Hre. rewrite (main_batch _ _ _ _ _ _ Hre).
  destruct (dispatch_globals regex (cwd w) (os_walk ext (cwd w))
              (batch_start target w)) as (evs & Ht & Hs & Hm & Hi).
  destruct (dispatch conf ext regex (cwd w) (os_walk ext (cwd w))
              (batch_start target w)) as [w2 r].
  cbn [fst] in *. exists w2, r, evs. split; [done|].
  split; [by rewrite Ht; simpl; rewrite <- app_assoc|].
  by repeat split.
Qed.

End Main.

(** * The properties on the examples *)

(** Close a goal about closed terms by evaluation. *)
Ltac evaluate :=
  repeat match goal with
         | |- _ ∧ _ => split
         | |- ∃ _, _ => eexists
         end;
  vm_compute; reflexivity.

Import Examples.

(** ** The header inspection *)

(** C3. A single readable file whose header carries two of the
    instrument keys gets two instrument tags, not the one of the first
    key: the tags are no longer aligned with the files, and the batch of
    one file is taken for a batch of several instruments. *)
Theorem two_header_keys_give_two_tags :
  (∃ w1, read_headers conf two_key_night ["f1.fits"] (start "/data" true) =
         (w1, Val (["f1.fits"], ["TEL1CAM"; "TEL1"], ["R"]))) ∧
  (run_the_pipeline conf two_key_night ["f1.fits"] (start "/data" true)).2 =
  Raise (NameError "instruemnts").
Proof. evaluate. Qed.

(** C4. The file that follows a file that cannot be opened is kept but
    never opened: here the only readable file is skipped, no tag is
    found and the run fails for want of an instrument. With two
    unreadable files the second one stays in the batch, which is not
    empty. *)
Theorem file_after_unreadable_file_is_skipped :
  (∃ w1, read_headers conf damaged_night ["bad.fits"; "good.fits"]
                      (start "/data" true) =
         (w1, Val (["good.fits"], [], [])) ∧
         opened (trace w1) = ["bad.fits"]) ∧
  is_Some (fits_open damaged_night "/data" "good.fits") ∧
  (run_the_pipeline conf damaged_night ["bad.fits"; "good.fits"]
                    (start "/data" true)).2 =
  Raise (KeyError "cannot identify telescope/instrument") ∧
  (∃ w1, read_headers conf damaged_night ["bad1.fits"; "bad2.fits"]
                      (start "/data" true) =
         (w1, Val (["bad2.fits"], [], []))).
Proof.
  split; [evaluate|].
  split; [eexists; vm_compute; reflexivity|].
  evaluate.
Qed.

(** C5. With two instruments in the batch the run does end, but with a
    [NameError] raised by the first statement of the branch: no file is
    reported with its tag. *)
Theorem mixed_instruments_are_not_reported :
  ∃ w2, run_the_pipeline conf mixed_night two_frames (start "/data" true) =
        (w2, Raise (NameError "instruemnts")) ∧
        opened (trace w2) = two_frames ∧
        file_tags (trace w2) = [].
Proof. evaluate. Qed.

(** ** The pattern for data frames *)

(** C6. The pattern ends in a set of characters, not in a choice of
    extensions: a name that starts with the prefix is selected as soon as
    its last character is one of [f i t s | F I T S]. Upper case in the
    prefix is not matched. *)
Theorem pattern_selects_by_last_character :
  ∃ regex, re_compile (dataset_pattern "data") = Some regex ∧
    re_match regex "data.txt" = true ∧
    selected_by_rule "data" "data.txt" = false ∧
    re_match regex "datasets" = true ∧
    selected_by_rule "data" "datasets" = false ∧
    re_match regex "data01.fits" = true ∧
    selected_by_rule "data" "data01.fits" = true ∧
    re_match regex "DATA01.fits" = false.
Proof. evaluate. Qed.

(** ** The stops after the registration *)

(** C1, as stated: with a filter without calibration the registration
    may keep no frame and the run still records no abort. *)
Lemma no_abort_for_filter_without_calibration :
  ∃ w1 fs telescope obsparam filtername w2,
    identify conf unfiltered_cloudy_night two_frames (start "/data" true) =
      (w1, Val (fs, telescope, obsparam, filtername)) ∧
    goodfits (register_stage unfiltered_cloudy_night "/data" fs telescope
                             obsparam) = [] ∧
    run_the_pipeline conf unfiltered_cloudy_night two_frames
                     (start "/data" true) = (w2, Val (Some 0%Z)) ∧
    stages_invoked (trace w2) = [Prepare; Register] ∧
    aborts (trace w2) = [].
Proof. evaluate. Qed.

Lemma registration_failure_aborts_witness :
  ∃ w2 evs,
    run_the_pipeline conf cloudy_night two_frames (start "/data" true) =
      (w2, Val (Some 0%Z)) ∧
    frame (start "/data" true) w2 evs ∧
    stages_invoked evs = [Prepare; Register] ∧
    aborts evs = ["pp_registration"].
Proof.
  eapply (registration_failure_aborts conf cloudy_night two_frames
            (start "/data" true));
    vm_compute; reflexivity.
Defined.

Lemma no_calibration_filter_stops_after_register_witness :
  ∃ w2 evs,
    run_the_pipeline conf unfiltered_night two_frames (start "/data" true) =
      (w2, Val (Some 0%Z)) ∧
    frame (start "/data" true) w2 evs ∧
    stages_invoked evs = [Prepare; Register] ∧
    aborts evs = [].
Proof.
  eapply (no_calibration_filter_stops_after_register conf unfiltered_night
            two_frames (start "/data" true));
    vm_compute; reflexivity.
Defined.

Lemma filter_stop_precedes_registration_abort_witness :
  ∃ w2 evs,
    run_the_pipeline conf unfiltered_cloudy_night two_frames
                     (start "/data" true) = (w2, Val (Some 0%Z)) ∧
    frame (start "/data" true) w2 evs ∧
    last (stages_invoked evs) = Some Register ∧
    "pp_registration" ∉ aborts evs.
Proof.
  eapply (filter_stop_precedes_registration_abort conf
            unfiltered_cloudy_night two_frames (start "/data" true));
    vm_compute; reflexivity.
Defined.

(** ** The strings handed to the reporter *)

(** C9, as stated: the single data set mode leaves the summary switch as
    configured; when it is off, all stages run and the reporter receives
    no string. *)
Lemma single_run_reports_nothing :
  ∃ w2, main conf clear_night None None two_frames (start "/data" false) =
        Some (w2, Val tt) ∧
        stages_invoked (trace w2) =
          [Prepare; Register; Photometry; Calibrate; Distill] ∧
        summaries (trace w2) = [].
Proof. evaluate. Qed.

Lemma one_summary_per_completed_stage_witness :
  ∃ evs,
    frame (start "/data" true)
          (run_the_pipeline conf clear_night two_frames
                            (start "/data" true)).1 evs ∧
    (use_diagnostics_summary (start "/data" true) = false →
     summaries evs = []) ∧
    (use_diagnostics_summary (start "/data" true) = true →
     (stages_invoked evs = [] ∧ reports evs = []) ∨
     (∃ m, reports evs = [inl Register; inr m] ∧
           (run_the_pipeline conf clear_night two_frames
                             (start "/data" true)).2 = Val (Some 0%Z)) ∨
     (∃ m1 m2,
        reports evs = [inl Register; inr m1; inl Photometry; inr m2;
                       inl Calibrate] ∧
        (run_the_pipeline conf clear_night two_frames
                          (start "/data" true)).2 =
        Raise (SystemExit (Some 1%Z))) ∨
     (∃ m1 m2 m3 m4,
        reports evs = [inl Register; inr m1; inl Photometry; inr m2;
                       inl Calibrate; inr m3; inl Distill; inr m4] ∧
        (run_the_pipeline conf clear_night two_frames
                          (start "/data" true)).2 = Val None)).
Proof.
  apply (one_summary_per_completed_stage conf clear_night two_frames
           (start "/data" true)).
  apply surjective_pairing.
Defined.

(** ** The walk over the directories *)

(** C7, as stated: when the calibration of A gives no result the run in A
    exits; [run_the_pipeline] has been called once, for A only, although
    C holds two frames, and the process is left in the directory of A. *)
Lemma walk_ends_in_A_without_calibration :
  ∃ w2, main conf survey_without_calibration_in_A (Some "img") None ["all"]
             (start "/data" false) =
        Some (w2, Raise (SystemExit (Some 1%Z))) ∧
        datasets img_regex tree =
          [("/data/A", ["img1.fits"; "img2.fits"; "img3.fits"]);
           ("/data/C", ["img1.FTS"; "img2.FTS"])] ∧
        calls (trace w2) =
          [("/data/A", ["img1.fits"; "img2.fits"; "img3.fits"])] ∧
        chdirs (trace w2) = ["/data/A"] ∧
        cwd w2 = "/data/A".
Proof. evaluate. Qed.

Lemma batch_runs_each_dataset_when_runs_return_witness :
  ∃ w2 evs,
    main conf survey (Some "img") None ["all"] (start "/data" false) =
      Some (w2, Val tt) ∧
    trace w2 = trace (start "/data" false) ++ evs ∧
    cwd w2 = "/data" ∧
    calls evs = datasets img_regex tree ∧
    Forall (λ d, Sorted string_le d.2) (calls evs) ∧
    chdirs evs = flat_map (λ d, [d.1; "/data"]) (calls evs).
Proof.
  apply (batch_runs_each_dataset_when_runs_return conf survey "img" None
           img_regex (start "/data" false)).
  - reflexivity.
  - intros root dirs files w' Hin Hsome Hcwd.
    change (os_walk survey (cwd (start "/data" false))) with tree in Hin.
    unfold tree in Hin.
    destruct w' as [dir summary idx target events]. simpl in Hcwd. subst dir.
    repeat (apply elem_of_cons in Hin as [Heq|Hin];
            [injection Heq as -> -> ->|]).
    + by vm_compute in Hsome.
    + destruct summary; eexists _, _; vm_compute; reflexivity.
    + by vm_compute in Hsome.
    + destruct summary; eexists _, _; vm_compute; reflexivity.
    + by apply elem_of_nil in Hin.
Defined.

(** C8, as stated: the failed calibration of A ends the walk; C, which
    holds two frames, is never attempted. *)
Lemma failed_calibration_ends_the_walk :
  ∃ w2, dispatch conf survey_without_calibration_in_A img_regex "/data" tree
                 (batch_start None (start "/data" false)) =
        (w2, Raise (SystemExit (Some 1%Z))) ∧
        aborts (trace w2) = ["pp_calibrate"] ∧
        dataset_frames img_regex ["img2.FTS"; "img1.FTS"] =
          ["img1.FTS"; "img2.FTS"] ∧
        (calls (trace w2)).*1 = ["/data/A"].
Proof. evaluate. Qed.

Lemma walk_goes_on_when_the_run_returns_witness :
  aborts (trace (run_the_pipeline conf survey_without_registration_in_A
                   (dataset_frames img_regex files_of_A)
                   (enter "/data/A" before_A)).1) = ["pp_registration"] ∧
  ((∃ v, Val (Some 0%Z) = Val v ∧
     dispatch conf survey_without_registration_in_A img_regex "/data"
              (("/data/A", [], files_of_A) :: after_A) before_A =
       dispatch conf survey_without_registration_in_A img_regex "/data"
         after_A
         (leave "/data"
            (run_the_pipeline conf survey_without_registration_in_A
               (dataset_frames img_regex files_of_A)
               (enter "/data/A" before_A)).1) ∧
     cwd (leave "/data"
            (run_the_pipeline conf survey_without_registration_in_A
               (dataset_frames img_regex files_of_A)
               (enter "/data/A" before_A)).1) = "/data" ∧
     ∃ evs,
       trace (leave "/data"
                (run_the_pipeline conf survey_without_registration_in_A
                   (dataset_frames img_regex files_of_A)
                   (enter "/data/A" before_A)).1) = trace before_A ++ evs ∧
       calls evs = [("/data/A", dataset_frames img_regex files_of_A)]) ∨
   (∃ e, Val (Some 0%Z) = Raise e ∧
     dispatch conf survey_without_registration_in_A img_regex "/data"
              (("/data/A", [], files_of_A) :: after_A) before_A =
       ((run_the_pipeline conf survey_without_registration_in_A
           (dataset_frames img_regex files_of_A)
           (enter "/data/A" before_A)).1, Raise e))).
Proof.
  split; [vm_compute; reflexivity|].
  apply (walk_goes_on_when_the_run_returns conf
           survey_without_registration_in_A img_regex "/data" "/data/A" []
           files_of_A after_A before_A _ (Val (Some 0%Z))).
  - by vm_compute.
  - vm_compute. reflexivity.
Defined.

(** ** The further properties, on the examples *)

(** All of a list of tags are [tag]. *)
Ltac same_tag :=
  split; [done|];
  let t := fresh "t" in
  let Ht := fresh "Ht" in
  intros t Ht;
  repeat (apply elem_of_cons in Ht as [->|Ht]; [reflexivity|]);
  by apply elem_of_nil in Ht.

Lemma readable_batch_is_kept_witness :
  (read_headers conf clear_night two_frames (start "/data" true)).2 =
  Val (two_frames, ["TEL1"; "TEL1"], ["R"; "R"]).
Proof.
  apply (readable_batch_is_kept conf clear_night two_frames
           (start "/data" true)).
  repeat constructor; by eexists.
Defined.

Lemma one_key_per_header_aligns_tags_witness :
  (read_headers conf clear_night two_frames (start "/data" true)).2 =
  Val (two_frames, ["TEL1"; "TEL1"], ["R"; "R"]).
Proof.
  apply (one_key_per_header_aligns_tags conf clear_night two_frames
           ["TEL1"; "TEL1"] ["R"; "R"] (start "/data" true));
    repeat constructor; eexists; (split; [reflexivity|]);
    vm_compute; reflexivity.
Defined.

Lemma file_after_unreadable_file_is_kept_unread_witness :
  ∃ kept instruments filters,
    (read_headers conf damaged_night ["f3.fits"] (start "/data" true)).2 =
      Val (kept, instruments, filters) ∧
    (read_headers conf damaged_night
                  ["f1.fits"; "bad.fits"; "f2.fits"; "f3.fits"]
                  (start "/data" true)).2 =
      Val ("f1.fits" :: "f2.fits" :: kept, "TEL1" :: instruments,
           "R" :: filters).
Proof.
  apply (file_after_unreadable_file_is_kept_unread conf damaged_night
           ["f1.fits"] "bad.fits" "f2.fits" ["f3.fits"] (start "/data" true)).
  - repeat constructor; by eexists.
  - reflexivity.
Defined.

Lemma batch_without_instrument_tag_is_rejected_witness :
  ∃ w2 evs,
    run_the_pipeline conf untagged_night two_frames (start "/data" true) =
      (w2, Raise (KeyError "cannot identify telescope/instrument")) ∧
    frame (start "/data" true) w2 evs ∧ stages_invoked evs = [].
Proof.
  apply (batch_without_instrument_tag_is_rejected conf untagged_night
           two_frames (start "/data" true) two_frames ["R"; "R"]).
  - vm_compute. reflexivity.
  - done.
Defined.

Lemma batch_without_filter_tag_is_rejected_witness :
  ∃ w2 evs,
    run_the_pipeline conf filterless_night two_frames (start "/data" true) =
      (w2, Raise (KeyError "cannot identify filter")) ∧
    frame (start "/data" true) w2 evs ∧ stages_invoked evs = [].
Proof.
  apply (batch_without_filter_tag_is_rejected conf filterless_night
           two_frames (start "/data" true) two_frames ["TEL1"; "TEL1"]).
  - vm_compute. reflexivity.
  - done.
  - done.
Defined.

Lemma mixed_instruments_raise_name_error_witness :
  ∃ w2 evs,
    run_the_pipeline conf mixed_night two_frames (start "/data" true) =
      (w2, Raise (NameError "instruemnts")) ∧
    frame (start "/data" true) w2 evs ∧ file_tags evs = [] ∧
    stages_invoked evs = [].
Proof.
  apply (mixed_instruments_raise_name_error conf mixed_night two_frames
           (start "/data" true) two_frames ["TEL1"; "TEL2"] ["R"; "R"]).
  - vm_compute. reflexivity.
  - done.
  - done.
  - vm_compute. lia.
Defined.


Lemma unknown_filter_tag_is_a_key_error_witness :
  ∃ w2 evs,
    run_the_pipeline conf odd_filter_night two_frames (start "/data" true) =
      (w2, Raise (KeyError "Z")) ∧
    frame (start "/data" true) w2 evs ∧ stages_invoked evs = [] ∧
    last evs = Some (Logging INFO (TelescopeFramesIdentified 2 "TEL1CAM")).
Proof.
  apply (unknown_filter_tag_is_a_key_error conf odd_filter_night two_frames
           (start "/data" true) two_frames ["TEL1"; "TEL1"] ["Z"; "Z"]
           "TEL1" "TEL1CAM" tel1 "Z").
  - vm_compute. reflexivity.
  - done.
  - same_tag.
  - vm_compute. reflexivity.
  - vm_compute. reflexivity.
  - same_tag.
  - vm_compute. reflexivity.
Defined.

Lemma mixed_filters_are_reported_witness :
  ∃ w2 evs,
    run_the_pipeline conf two_filter_night two_frames (start "/data" true) =
      (w2, Raise (SystemExit None)) ∧
    frame (start "/data" true) w2 evs ∧
    file_tags evs = [("f1.fits", "R"); ("f2.fits", "clear")] ∧
    stages_invoked evs = [].
Proof.
  apply (mixed_filters_are_reported conf two_filter_night two_frames
           (start "/data" true) two_frames ["TEL1"; "TEL1"] ["R"; "clear"]
           "TEL1" "TEL1CAM" tel1).
  - vm_compute. reflexivity.
  - done.
  - same_tag.
  - vm_compute. reflexivity.
  - vm_compute. reflexivity.
  - vm_compute. lia.
Defined.

Lemma identification_accepts_exactly_witness :
  (identify conf clear_night two_frames (start "/data" true)).2 =
    Val (two_frames, "TEL1CAM", tel1, Some "R") ↔
  two_frames = two_frames ∧ two_frames ≠ [] ∧
  ∃ tag ftag,
    homogeneous ["TEL1"; "TEL1"] tag ∧ homogeneous ["R"; "R"] ftag ∧
    instrument_identifiers conf !! tag = Some "TEL1CAM" ∧
    telescope_parameters conf !! "TEL1CAM" = Some tel1 ∧
    filter_translations tel1 !! ftag = Some (Some "R").
Proof.
  apply (identification_accepts_exactly conf clear_night two_frames
           (start "/data" true) two_frames ["TEL1"; "TEL1"] ["R"; "R"]
           two_frames "TEL1CAM" tel1 (Some "R")).
  vm_compute. reflexivity.
Defined.

Lemma stages_get_their_frame_sets_witness :
  ∃ w2 evs,
    run_the_pipeline conf clear_night two_frames (start "/data" true) =
      (w2, Val None) ∧
    frame (start "/data" true) w2 evs ∧
    invocations evs =
      [(Prepare, two_frames); (Register, two_frames);
       (Photometry, two_frames); (Calibrate, two_frames);
       (Distill, two_frames)] ∧
    aborts evs = [] ∧
    last evs = Some GcCollect.
Proof.
  eapply (stages_get_their_frame_sets conf clear_night two_frames
            (start "/data" true) _ two_frames "TEL1CAM" tel1 "R"
            (some_calibration two_frames)).
  - vm_compute. reflexivity.
  - done.
  - reflexivity.
Defined.

Lemma failed_calibration_exits_with_status_one_witness :
  ∃ w2 evs,
    run_the_pipeline conf survey_without_calibration_in_A two_frames
                     (start "/data/A" true) =
      (w2, Raise (SystemExit (Some 1%Z))) ∧
    frame (start "/data/A" true) w2 evs ∧
    invocations evs =
      [(Prepare, two_frames); (Register, two_frames);
       (Photometry, two_frames); (Calibrate, two_frames)] ∧
    aborts evs = ["pp_calibrate"] ∧
    last evs = Some (DiagAbort "pp_calibrate").
Proof.
  eapply (failed_calibration_exits_with_status_one conf
            survey_without_calibration_in_A two_frames
            (start "/data/A" true) _ two_frames "TEL1CAM" tel1 "R").
  - vm_compute. reflexivity.
  - done.
  - reflexivity.
Defined.

Lemma registration_string_tells_the_outcome_witness :
  ∃ evs m rest,
    frame (start "/data" true)
          (run_the_pipeline conf cloudy_night two_frames
                            (start "/data" true)).1 evs ∧
    summaries evs = m :: rest ∧
    (m = AllImagesRegistered ↔
     length (goodfits (register_stage cloudy_night "/data" two_frames
                                      "TEL1CAM" tel1)) =
     length two_frames) ∧
    (m = RegistrationFailed ↔
     goodfits (register_stage cloudy_night "/data" two_frames "TEL1CAM"
                              tel1) = []).
Proof.
  eapply (registration_string_tells_the_outcome conf cloudy_night two_frames
            (start "/data" true) _ two_frames "TEL1CAM" tel1 (Some "R")).
  - vm_compute. reflexivity.
  - reflexivity.
Defined.

Lemma distill_string_is_for_the_first_target_witness :
  ∃ before target after,
    targetnames some_distillate = before ++ target :: after ∧
    Forall (λ t, t = "control_star") before ∧
    target ≠ "control_star" ∧
    Forall2 (λ frame mag, frame !! 7%nat = Some mag)
            (target_frames some_distillate target) [153 # 10]%Q.
Proof.
  apply (distill_string_is_for_the_first_target some_distillate
           [153 # 10]%Q).
  reflexivity.
Defined.

Lemma single_dataset_mode_calls_once_witness :
  ∃ w2 r evs,
    main conf clear_night None None ["all"] (start "/data" false) =
      Some (w2, r) ∧
    trace w2 = trace (start "/data" false) ++ evs ∧
    cwd w2 = "/data" ∧
    use_diagnostics_summary w2 = false ∧
    calls evs = [("/data", ["all"])] ∧
    chdirs evs = [] ∧
    CreateSummary ∉ evs.
Proof.
  apply (single_dataset_mode_calls_once conf clear_night None None ["all"]
           (start "/data" false)).
  by left.
Defined.

Lemma first_failing_call_ends_the_walk_witness :
  ∃ w2 e evs,
    dispatch conf survey_without_calibration_in_A img_regex "/data"
             (above_A ++ ("/data/A", [], files_of_A) :: after_A)
             (batch_start None (start "/data" false)) = (w2, Raise e) ∧
    trace w2 = trace (batch_start None (start "/data" false)) ++ evs ∧
    cwd w2 = "/data/A" ∧
    calls evs =
      datasets img_regex above_A ++
      [("/data/A", dataset_frames img_regex files_of_A)] ∧
    last (chdirs evs) = Some "/data/A".
Proof.
  apply (first_failing_call_ends_the_walk conf
           survey_without_calibration_in_A img_regex "/data" above_A
           "/data/A" [] files_of_A after_A
           (batch_start None (start "/data" false))).
  - reflexivity.
  - intros root dirs files w' Hin Hsome Hcwd. unfold above_A in Hin.
    apply elem_of_cons in Hin as [Heq|Hin];
      [injection Heq as -> -> ->|by apply elem_of_nil in Hin].
    by vm_compute in Hsome.
  - by vm_compute.
  - intros w' Hcwd.
    destruct w' as [dir summary idx target events]. simpl in Hcwd. subst dir.
    destruct summary; eexists _, _; vm_compute; reflexivity.
Defined.

Lemma dataset_pattern_selects_witness :
  re_match img_regex "img_old.txt" = true ↔
  ∃ middle c,
    mem c extension_set = true ∧ (newline ∉ middle) ∧
    (list_ascii_of_string "img_old.txt" =
       list_ascii_of_string "img" ++ middle ++ [c] ∨
     list_ascii_of_string "img_old.txt" =
       list_ascii_of_string "img" ++ middle ++ [c; newline]).
Proof.
  apply (dataset_pattern_selects "img" img_regex "img_old.txt").
  - repeat constructor.
  - vm_compute. reflexivity.
Defined.

Lemma batch_mode_counts_its_calls_witness :
  ∃ w2 r evs,
    main conf survey_without_calibration_in_A (Some "img") None ["all"]
         (start "/data" false) = Some (w2, r) ∧
    trace w2 = trace (start "/data" false) ++ CreateSummary :: evs ∧
    use_diagnostics_summary w2 = true ∧
    man_targetname w2 = None ∧
    pp_process_idx w2 =
      (pp_process_idx (start "/data" false) + length (calls evs))%nat.
Proof.
  apply (batch_mode_counts_its_calls conf survey_without_calibration_in_A
           "img" None img_regex (start "/data" false)).
  vm_compute. reflexivity.
Defined.
